(** * textual.timer: the [Timer] scheduling loop

    A shallow embedding of [src/textual/timer.py].

    - Times ([_time.get_time()], intervals, sleep durations) are exact
      rationals [Q]: Python floats without their rounding.
    - The coroutine [_run] is a computation in a state-and-error monad over a
      [World]: the timer object, the clock, the liveness of the weak target,
      the host's exit flag, and a script of what the rest of the program does
      each time the coroutine is suspended.  Under the cooperative scheduler
      the clock and the timer's fields only change at suspension points: a
      blocked gate wait, a sleep, an awaited callback.
    - The [while] loop is driven by fuel. *)

From Stdlib Require Import ZArith QArith Qround Qabs Lia Lqa List String Bool.
From Stdlib Require Import DecimalString.
From Stdlib Require Import Sorted.
Import ListNotations.

Local Open Scope Z_scope.

(** ** Python numerics *)

(** [int(x)] on a float: truncation toward zero. *)
Definition py_int (x : Q) : Z := Z.quot (Qnum x) (Zpos (Qden x)).

(** [a < b] on floats. *)
Definition Qltb (a b : Q) : bool := negb (Qle_bool b a).

(** [max(0, x)]. *)
Definition py_max0 (x : Q) : Q := if Qltb 0 x then x else 0%Q.

(** [str(n)] for an int. *)
Definition py_str (n : Z) : string := NilZero.string_of_int (Z.to_int n).

(** ** Exceptions *)

(** The exception classes the module distinguishes.  [CancelledError]
    derives from [BaseException]; [EventTargetGone] and every [Exception_]
    derive from [Exception]; [BaseException_] stands for the remaining direct
    descendants of [BaseException] ([KeyboardInterrupt], [SystemExit],
    [GeneratorExit]). *)
Inductive exn : Type :=
| CancelledError
| EventTargetGone
| Exception_ (what : string)
| BaseException_ (what : string).

(** [isinstance(e, Exception)]. *)
Definition is_Exception (e : exn) : bool :=
  match e with
  | EventTargetGone | Exception_ _ => true
  | CancelledError | BaseException_ _ => false
  end.

(** ** The Timer object *)

(** The callback is opaque: what a call to it does is given by the script. *)
Inductive TimerCallback : Type := Callback (id : nat).

(** Handle of the asyncio task created by [_start]. *)
Inductive Task : Type := TaskHandle (name : string).

Record Timer : Type := mkTimer {
  _target_repr : string;
  _interval : Q;
  name : string;
  own_timer_count : option Z;   (* [_timer_count] in the instance __dict__ *)
  _callback : option TimerCallback;
  _repeat : option Z;
  _skip : bool;
  _task : option Task;
  _reset : bool;
  _original_pause : bool;
  _active_cache : option bool   (* cached [_active] Event: [Some true] = set *)
}.

(** Class attributes of [Timer]: the state shared by the whole process. *)
Record TimerClass : Type := mkTimerClass {
  cls_timer_count : Z
}.

(** [_timer_count: int = 1] *)
Definition Timer_class : TimerClass := {| cls_timer_count := 1 |}.

(** Attribute lookup [self._timer_count]: the instance __dict__ first, then
    the class. *)
Definition get_timer_count (cls : TimerClass) (own : option Z) : Z :=
  match own with
  | Some n => n
  | None => cls_timer_count cls
  end.

(** [Timer.__init__].  [self._timer_count += 1] reads through the instance
    and assigns on the instance; the class attribute is not written. *)
Definition __init__ (cls : TimerClass) (event_target : string) (interval : Q)
    (name : option string) (callback : option TimerCallback)
    (repeat : option Z) (skip pause : bool) : Timer * TimerClass :=
  let own := @None Z in
  let name' :=
    match name with
    | None => ("Timer#" ++ py_str (get_timer_count cls own))%string
    | Some n => n
    end in
  let own := Some (get_timer_count cls own + 1) in
  ({| _target_repr := event_target;
      _interval := interval;
      name := name';
      own_timer_count := own;
      _callback := callback;
      _repeat := repeat;
      _skip := skip;
      _task := None;
      _reset := false;
      _original_pause := pause;
      _active_cache := None |},
   cls).

(** Constructing timers one after another, threading the class state. *)
Fixpoint construct_all (cls : TimerClass)
    (args : list (string * Q * option string)) : list Timer * TimerClass :=
  match args with
  | [] => ([], cls)
  | (tgt, itv, nm) :: rest =>
      let '(t, cls1) := __init__ cls tgt itv nm None None true false in
      let '(ts, cls2) := construct_all cls1 rest in
      (t :: ts, cls2)
  end.

(** ** Methods that only touch the object *)

Definition with_active (e : option bool) (t : Timer) : Timer :=
  mkTimer (_target_repr t) (_interval t) (name t) (own_timer_count t)
          (_callback t) (_repeat t) (_skip t) (_task t) (_reset t)
          (_original_pause t) e.

Definition with_reset (r : bool) (t : Timer) : Timer :=
  mkTimer (_target_repr t) (_interval t) (name t) (own_timer_count t)
          (_callback t) (_repeat t) (_skip t) (_task t) r
          (_original_pause t) (_active_cache t).

Definition with_task (k : option Task) (t : Timer) : Timer :=
  mkTimer (_target_repr t) (_interval t) (name t) (own_timer_count t)
          (_callback t) (_repeat t) (_skip t) k (_reset t)
          (_original_pause t) (_active_cache t).

(** The cached property [_active]: on first access the Event is created, and
    set unless the timer was constructed with [pause=True]. *)
Definition _active (t : Timer) : bool * Timer :=
  match _active_cache t with
  | Some e => (e, t)
  | None =>
      let event := false in
      let event := if negb (_original_pause t) then true else event in
      (event, with_active (Some event) t)
  end.

(** [self._active.set()] and [self._active.clear()]. *)
Definition active_set (t : Timer) : Timer := with_active (Some true) (snd (_active t)).
Definition active_clear (t : Timer) : Timer := with_active (Some false) (snd (_active t)).

Definition _start (t : Timer) : Timer := with_task (Some (TaskHandle (name t))) t.

Definition pause (t : Timer) : Timer := active_clear t.

Definition reset (t : Timer) : Timer := with_reset true (active_set t).

Definition resume (t : Timer) : Timer := active_set t.

(** [stop]: the boolean says whether the task was asked to cancel. *)
Definition stop (t : Timer) : Timer * bool :=
  match _task t with
  | None => (t, false)
  | Some _ => (with_task None (active_set t), true)
  end.

(** ** The world around the coroutine *)

(** What other code can do to the timer and its surroundings while the
    coroutine is suspended. *)
Inductive Call : Type :=
| CallPause | CallResume | CallReset | CallStop
| ReleaseTarget      (* the owner of the event target drops it *)
| HostExit.          (* the app sets [_exit] *)

(** How an awaited callback ends. *)
Inductive CbOutcome : Type :=
| Returns
| Raises (e : exn).

(** One suspension of the coroutine: the time that passes beyond what was
    asked for, the calls made meanwhile, and, when the suspension is an
    awaited callback, how the callback ends. *)
Record Turn : Type := mkTurn {
  elapsed : Q;
  calls : list Call;
  outcome : CbOutcome
}.

Definition idle_turn : Turn := {| elapsed := 0; calls := []; outcome := Returns |}.

(** [events.Timer]. *)
Record TimerEvent : Type := mkTimerEvent {
  ev_timer : string;
  ev_time : Q;
  ev_count : Z;
  ev_callback : option TimerCallback
}.

(** Observable actions of the coroutine, oldest first in the log. *)
Inductive Obs : Type :=
| ObsSleep (wait_time : Q)
| ObsTick (next_timer : Q) (count : Z)
| ObsInvoke (cb : TimerCallback)
| ObsHandled (error : exn)
| ObsPost (event : TimerEvent).

Record World : Type := mkWorld {
  self : Timer;
  clock : Q;
  cancelling : bool;      (* [Task.cancel()] was called and not yet delivered *)
  target_alive : bool;    (* the weak reference still resolves *)
  app_exit : bool;        (* [app._exit] *)
  script : list Turn;
  log : list Obs
}.

Definition with_self (t : Timer) (w : World) : World :=
  mkWorld t (clock w) (cancelling w) (target_alive w) (app_exit w) (script w) (log w).

Definition with_clock (c : Q) (w : World) : World :=
  mkWorld (self w) c (cancelling w) (target_alive w) (app_exit w) (script w) (log w).

Definition with_cancelling (b : bool) (w : World) : World :=
  mkWorld (self w) (clock w) b (target_alive w) (app_exit w) (script w) (log w).

Definition with_script (s : list Turn) (w : World) : World :=
  mkWorld (self w) (clock w) (cancelling w) (target_alive w) (app_exit w) s (log w).

Definition observe (o : Obs) (w : World) : World :=
  mkWorld (self w) (clock w) (cancelling w) (target_alive w) (app_exit w) (script w)
          (log w ++ [o]).

Definition env_call (w : World) (c : Call) : World :=
  match c with
  | CallPause => with_self (pause (self w)) w
  | CallResume => with_self (resume (self w)) w
  | CallReset => with_self (reset (self w)) w
  | CallStop =>
      let '(t, cancel) := stop (self w) in
      with_cancelling (cancelling w || cancel) (with_self t w)
  | ReleaseTarget =>
      mkWorld (self w) (clock w) (cancelling w) false (app_exit w) (script w) (log w)
  | HostExit =>
      mkWorld (self w) (clock w) (cancelling w) (target_alive w) true (script w) (log w)
  end.

(** A suspension asked to last [d]: the clock moves by [d] and the turn's
    extra time, then the turn's calls happen. *)
Definition env_turn (d : Q) (tn : Turn) (w : World) : World :=
  fold_left env_call (calls tn) (with_clock (clock w + d + elapsed tn) w).

(** The next turn of the script; an exhausted script is idle. *)
Definition next_turn (w : World) : Turn * World :=
  match script w with
  | [] => (idle_turn, w)
  | tn :: rest => (tn, with_script rest w)
  end.

(** ** The monad of the coroutine *)

Inductive result (A : Type) : Type :=
| Ok (a : A)
| Raise (e : exn)
| Blocked        (* suspended on the gate with nobody left to open it *)
| OutOfFuel.     (* the loop was still running when the fuel ran out *)
Arguments Ok {A} a.
Arguments Raise {A} e.
Arguments Blocked {A}.
Arguments OutOfFuel {A}.

Definition M (A : Type) : Type := World -> result A * World.

Definition ret {A} (a : A) : M A := fun w => (Ok a, w).

Definition bind {A B} (c : M A) (k : A -> M B) : M B :=
  fun w =>
    match c w with
    | (Ok a, w1) => k a w1
    | (Raise e, w1) => (Raise e, w1)
    | (Blocked, w1) => (Blocked, w1)
    | (OutOfFuel, w1) => (OutOfFuel, w1)
    end.

Definition raise {A} (e : exn) : M A := fun w => (Raise e, w).

(** The [except] clauses of a [try], in order: each is a test on the class of
    the exception and a handler.  The first clause that matches handles the
    exception; with no match it propagates.  What a handler raises is not
    offered to the clauses after it. *)
Fixpoint handle {A} (clauses : list ((exn -> bool) * (exn -> M A))) (e : exn) : M A :=
  match clauses with
  | [] => raise e
  | (matches, handler) :: rest => if matches e then handler e else handle rest e
  end.

(** [try: c  except ...: ...] *)
Definition try_except {A} (c : M A) (clauses : list ((exn -> bool) * (exn -> M A))) : M A :=
  fun w =>
    match c w with
    | (Raise e, w1) => handle clauses e w1
    | r => r
    end.

Declare Scope timer_scope.
Delimit Scope timer_scope with timer.
Notation "x <- c ;; k" := (bind c (fun x => k))
  (at level 61, c at next level, right associativity) : timer_scope.
Notation "c ;; k" := (bind c (fun _ => k))
  (at level 61, right associativity) : timer_scope.
Local Open Scope timer_scope.

(** ** Primitive operations *)

Definition get_self : M Timer := fun w => (Ok (self w), w).

(** [self._reset = r] *)
Definition set_reset (r : bool) : M unit :=
  fun w => (Ok tt, with_self (with_reset r (self w)) w).

(** Modelled from the spec: [_time.get_time()], the monotonic clock of
    section 6, which is not part of timer.py.  It reads the clock of the
    world. *)
Definition get_time : M Q := fun w => (Ok (clock w), w).

(** Modelled from the spec: [active_app.get()._exit], the host's "is
    shutting down" flag of section 6, polled before each dispatch. *)
Definition get_app_exit : M bool := fun w => (Ok (app_exit w), w).

(** [a / b] on floats. *)
Definition py_truediv (a b : Q) : M Q :=
  if Qeq_bool b 0 then raise (Exception_ "ZeroDivisionError") else ret (a / b)%Q.

(** Modelled from the spec: a suspension point of the cooperative scheduler
    of section 5.  The coroutine yields to the event loop for [d]: one turn
    of the script runs; a cancellation requested by then is delivered
    here. *)
Definition suspend (d : Q) : M Turn :=
  fun w =>
    let '(tn, w1) := next_turn w in
    let w2 := env_turn d tn w1 in
    if cancelling w2 then (Raise CancelledError, with_cancelling false w2)
    else (Ok tn, w2).

(** Modelled from the spec: [await sleep(wait_time)], the interruptible
    sleep of section 6 ([textual._time.sleep] is not part of timer.py): a
    suspension of at least [wait_time]. *)
Definition sleep (wait_time : Q) : M unit :=
  fun w => (suspend wait_time ;; ret tt) (observe (ObsSleep wait_time) w).

(** Modelled from the spec: the gate of section 4.2 ([asyncio.Event]).
    Waiting on a closed gate suspends the task until some other operation
    opens it: turns go by until one leaves the Event set. *)
Fixpoint wait_set (turns : list Turn) (w : World) : result unit * World :=
  match turns with
  | [] => (Blocked, w)
  | tn :: rest =>
      let w1 := env_turn 0 tn (with_script rest w) in
      if cancelling w1 then (Raise CancelledError, with_cancelling false w1)
      else if fst (_active (self w1)) then (Ok tt, w1)
      else wait_set rest w1
  end.

(** Modelled from the spec: [await self._active.wait()]; on an open gate it
    returns immediately (section 4.2). *)
Definition active_wait : M unit :=
  fun w =>
    let '(event, t) := _active (self w) in
    let w1 := with_self t w in
    if event then (Ok tt, w1) else wait_set (script w1) w1.

(** Modelled from the spec: [await invoke(callback)], the callback
    invocation helper of section 6 ([textual._callback.invoke] is not part of
    timer.py).  The callback runs for a turn, which says how it ends. *)
Definition invoke (cb : TimerCallback) : M unit :=
  fun w =>
    let '(tn, w1) := next_turn (observe (ObsInvoke cb) w) in
    let w2 := env_turn 0 tn w1 in
    match outcome tn with
    | Returns => (Ok tt, w2)
    | Raises e => (Raise e, w2)
    end.

(** Modelled from the spec: [app._handle_exception(error)], the error sink
    of section 6. *)
Definition _handle_exception (error : exn) : M unit :=
  fun w => (Ok tt, observe (ObsHandled error) w).

(** The property [target] (lines 82-87): resolve the weak reference or
    raise. *)
Definition target : M unit :=
  fun w => if target_alive w then (Ok tt, w) else (Raise EventTargetGone, w).

(** Modelled from the spec: [target.post_message(event)], the [post]
    operation of the dispatch target (section 6); it enqueues the event and
    returns. *)
Definition post_message (event : TimerEvent) : M unit :=
  fun w => (Ok tt, observe (ObsPost event) w).

(** ** The coroutine *)

Definition is_CancelledError (e : exn) : bool :=
  match e with CancelledError => true | _ => false end.

Definition is_EventTargetGone (e : exn) : bool :=
  match e with EventTargetGone => true | _ => false end.

(** [Timer._tick].  The call itself is recorded as [ObsTick]. *)
Definition _tick (next_timer : Q) (count : Z) : M unit :=
  (fun w => (Ok tt, observe (ObsTick next_timer count) w)) ;;
  exiting <- get_app_exit ;;
  if exiting then ret tt
  else
    t <- get_self ;;
    match _callback t with
    | Some cb =>
        try_except (invoke cb)
          [(is_CancelledError, fun e => raise e);
           (is_Exception, fun error => _handle_exception error)]
    | None =>
        let event := {| ev_timer := name t; ev_time := next_timer;
                        ev_count := count; ev_callback := _callback t |} in
        target ;;
        post_message event
    end.

(** How one pass through the body of the [while] ends. *)
Inductive LoopStep : Type :=
| Continue (count : Z) (start : Q)
| Break.

(** Lines 170-178: after the gate wait of a cycle. *)
Definition reset_or_tick (next_timer : Q) (count : Z) (start : Q) : M LoopStep :=
  t <- get_self ;;
  if _reset t then
    start <- get_time ;;
    let count := 0 in
    set_reset false ;;
    ret (Continue count start)
  else
    try_except
      (_tick next_timer count ;; ret (Continue count start))
      [(is_EventTargetGone, fun _ => ret Break)].

(** The recomputation of line 163. *)
Definition skip_count (now start interval : Q) : M Z :=
  q <- py_truediv (now - start) interval ;;
  ret (py_int (q + 1)).

(** Lines 160-178: the body of the [while]. *)
Definition iteration (interval : Q) (count : Z) (start : Q) : M LoopStep :=
  let next_timer := (start + inject_Z (count + 1) * interval)%Q in
  now <- get_time ;;
  t <- get_self ;;
  if _skip t && Qltb next_timer now then
    count <- skip_count now start interval ;;
    ret (Continue count start)
  else
    now <- get_time ;;
    let wait_time := py_max0 (next_timer - now) in
    sleep wait_time ;;
    let count := count + 1 in
    active_wait ;;
    reset_or_tick next_timer count start.

(** [_repeat is None or count <= _repeat] *)
Definition loop_cond (repeat : option Z) (count : Z) : bool :=
  match repeat with
  | None => true
  | Some r => count <=? r
  end.

(** The [while] of line 159; [fuel] bounds the number of passes. *)
Fixpoint run_loop (fuel : nat) (repeat : option Z) (interval : Q)
    (count : Z) (start : Q) : M unit :=
  if loop_cond repeat count then
    match fuel with
    | O => fun w => (OutOfFuel, w)
    | S fuel' =>
        step <- iteration interval count start ;;
        match step with
        | Continue count' start' => run_loop fuel' repeat interval count' start'
        | Break => ret tt
        end
    end
  else ret tt.

(** [self._active  # Force instantiation in same thread] *)
Definition force_active : M unit :=
  fun w => (Ok tt, with_self (snd (_active (self w))) w).

(** [Timer._run] (lines 150-178): the gate is waited on once, the anchor is
    read, and the [while] runs. *)
Definition _run (fuel : nat) : M unit :=
  let count := 0 in
  t <- get_self ;;
  let repeat := _repeat t in
  let interval := _interval t in
  force_active ;;
  active_wait ;;
  start <- get_time ;;
  run_loop fuel repeat interval count start.

(** [Timer._run_timer] *)
Definition _run_timer (fuel : nat) : M unit :=
  try_except (_run fuel) [(is_CancelledError, fun _ => ret tt)].

(** The world in which the task of a freshly started timer first runs. *)
Definition start_world (t : Timer) (now : Q) (turns : list Turn) : World :=
  {| self := _start t; clock := now; cancelling := false; target_alive := true;
     app_exit := false; script := turns; log := [] |}.

(** ** Reading a log *)

(** The counts of the dispatched ticks, in order. *)
Definition tick_count (o : Obs) : option Z :=
  match o with ObsTick _ c => Some c | _ => None end.

Fixpoint ticks (l : list Obs) : list Z :=
  match l with
  | [] => []
  | o :: l' =>
      match tick_count o with
      | Some c => c :: ticks l'
      | None => ticks l'
      end
  end.

Definition is_post (o : Obs) : bool := match o with ObsPost _ => true | _ => false end.
Definition is_invoke (o : Obs) : bool := match o with ObsInvoke _ => true | _ => false end.
Definition is_handled (o : Obs) : bool := match o with ObsHandled _ => true | _ => false end.

(** ** Vocabulary of the statements *)

(** A turn in which nobody calls the timer and the callback, if one is
    awaited, returns. *)
Definition quiet_turn (tn : Turn) : bool :=
  match calls tn, outcome tn with
  | [], Returns => true
  | _, _ => false
  end.

(** A world in which every dispatch succeeds: the gate is open, nothing is
    pending, the host is running, the target is alive, and the script is
    quiet. *)
Definition steady (w : World) : bool :=
  negb (cancelling w) && fst (_active (self w)) && negb (_reset (self w)) &&
  negb (app_exit w) && target_alive w && forallb quiet_turn (script w).

(** What a dispatch adds to the log. *)
Definition dispatch_obs (t : Timer) (next_timer : Q) (count : Z) : list Obs :=
  [ObsTick next_timer count;
   match _callback t with
   | Some cb => ObsInvoke cb
   | None => ObsPost {| ev_timer := name t; ev_time := next_timer;
                        ev_count := count; ev_callback := _callback t |}
   end].

(** A callback invocation or a posted event. *)
Definition is_dispatch (o : Obs) : bool := is_invoke o || is_post o.

(** The counts [first + 1, ..., first + n]. *)
Fixpoint counts_from (first : Z) (n : nat) : list Z :=
  match n with
  | O => []
  | S n' => (first + 1) :: counts_from (first + 1) n'
  end.

(** The log only grows: every computation of the coroutine appends. *)
Definition appends {A} (c : M A) : Prop :=
  forall w, exists l, log (snd (c w)) = log w ++ l.

(** The fire time of tick [k] from anchor [start]. *)
Definition fire_time (start interval : Q) (k : Z) : Q := (start + inject_Z k * interval)%Q.

(** Lines 165-169 of a cycle that does not skip. *)
Definition sleep_then_gate (interval : Q) (count : Z) (start : Q) : M unit :=
  fun w =>
    (sleep (py_max0 (fire_time start interval (count + 1) - clock w)) ;; active_wait) w.

(** The test of line 162. *)
Definition skips (interval : Q) (count : Z) (start : Q) (w : World) : bool :=
  _skip (self w) && Qltb (fire_time start interval (count + 1)) (clock w).

(** Calls that set the Event. *)
Definition opens (c : Call) : bool :=
  match c with
  | CallResume | CallReset | CallStop => true
  | CallPause | ReleaseTarget | HostExit => false
  end.

(** A script in which nobody resumes, resets or stops the timer. *)
Definition never_opened (turns : list Turn) : bool :=
  forallb (fun tn => forallb (fun c => negb (opens c)) (calls tn)) turns.

(** [keeps I c]: from a world in [I], [c] ends in a world in [I]. *)
Definition keeps {A} (I : World -> Prop) (c : M A) : Prop :=
  forall w, I w -> I (snd (c w)).

(** The first dispatch recorded in a stretch of the log. *)
Fixpoint first_tick (l : list Obs) : option (Q * Z) :=
  match l with
  | [] => None
  | ObsTick next_timer count :: _ => Some (next_timer, count)
  | _ :: l' => first_tick l'
  end.

(** The weak reference is dead and the events posted so far are [posted]. *)
Definition target_dead (posted : list Obs) (w : World) : Prop :=
  target_alive w = false /\ filter is_post (log w) = posted.

(** A call to [reset()]. *)
Definition is_reset_call (c : Call) : bool :=
  match c with CallReset => true | _ => false end.

Definition no_reset_calls (turns : list Turn) : bool :=
  forallb (fun tn => forallb (fun c => negb (is_reset_call c)) (calls tn)) turns.

(** No reset is pending and the script never calls [reset()]. *)
Definition no_reset (w : World) : Prop :=
  _reset (self w) = false /\ no_reset_calls (script w) = true.

(** The time a list of turns takes. *)
Definition total_elapsed (turns : list Turn) : Q :=
  fold_right (fun tn acc => (elapsed tn + acc)%Q) 0%Q turns.

(** ** Concrete timers and worlds *)

(** A timer with interval 1 and a generated name. *)
Definition demo_timer (callback : option TimerCallback) (repeat : option Z)
    (skip pause : bool) : Timer :=
  fst (__init__ Timer_class "widget" 1 None callback repeat skip pause).

(** The loop of a skipping timer anchored at 0 that has dispatched tick 1
    and comes back to the head of the [while] at time 7/2. *)
Definition late_world : World :=
  {| self := _start (demo_timer (Some (Callback 0)) None true false);
     clock := 7 # 2; cancelling := false; target_alive := true;
     app_exit := false; script := []; log := [] |}.



(** [reset()] is called during the first sleep. *)
Definition reset_world : World :=
  start_world (demo_timer (Some (Callback 0)) None true false) 0
    [mkTurn 0 [CallReset] Returns].

(** The callback of the first tick raises a [ValueError]. *)
Definition raising_world : World :=
  start_world (demo_timer (Some (Callback 0)) None true false) 0
    [idle_turn; mkTurn 0 [] (Raises (Exception_ "ValueError"))].

(** The callback of the first tick calls [sys.exit()]. *)
Definition exiting_world : World :=
  start_world (demo_timer (Some (Callback 0)) None true false) 0
    [idle_turn; mkTurn 0 [] (Raises (BaseException_ "SystemExit"))].

(** The callback of the first tick is cancelled while it is awaited. *)
Definition cancelled_world : World :=
  start_world (demo_timer (Some (Callback 0)) None true false) 0
    [idle_turn; mkTurn 0 [] (Raises CancelledError)].

(** A timer without callback whose target is released during the first
    sleep. *)
Definition released_world : World :=
  start_world (demo_timer None None true false) 0
    [mkTurn 0 [ReleaseTarget] Returns].

(** ** Vocabulary of whole runs *)

(** The dispatched ticks with their fire times, in order. *)
Fixpoint tick_pairs (l : list Obs) : list (Q * Z) :=
  match l with
  | [] => []
  | ObsTick next_timer count :: l' => (next_timer, count) :: tick_pairs l'
  | _ :: l' => tick_pairs l'
  end.

(** The durations the loop asked to sleep for, in order. *)
Fixpoint sleeps (l : list Obs) : list Q :=
  match l with
  | [] => []
  | ObsSleep d :: l' => d :: sleeps l'
  | _ :: l' => sleeps l'
  end.

(** What [_tick] records after the call itself. *)
Definition is_tick_detail (o : Obs) : bool := is_invoke o || is_handled o || is_post o.

(** Ticks of one phase: counts above [c0] and growing, each with the fire
    time [start + count * interval]; with [consecutive] they grow by one. *)
Inductive anchored (start interval : Q) (consecutive : bool) : Z -> list (Q * Z) -> Prop :=
| anchored_nil (c0 : Z) : anchored start interval consecutive c0 []
| anchored_cons (c0 c : Z) (l : list (Q * Z)) :
    c0 < c ->
    (consecutive = true -> c = c0 + 1) ->
    anchored start interval consecutive c l ->
    anchored start interval consecutive c0 ((fire_time start interval c, c) :: l).

Definition same_config (t : Timer) (w : World) : Prop :=
  _interval (self w) = _interval t /\ name (self w) = name t /\
  _callback (self w) = _callback t /\ _repeat (self w) = _repeat t /\
  _skip (self w) = _skip t /\ _original_pause (self w) = _original_pause t.

(** How the loop ends when [_tick] does not return: [EventTargetGone] is
    the [break] of line 178, anything else leaves the loop. *)
Definition after_tick (r : result unit) : result unit :=
  match r with
  | Raise e => if is_EventTargetGone e then Ok tt else Raise e
  | r' => r'
  end.

(** A computation that can only fail by being cancelled. *)
Definition only_cancels {A} (c : M A) : Prop :=
  forall w,
    match fst (c w) with
    | Raise e => e = CancelledError
    | OutOfFuel => False
    | _ => True
    end.

(** Every turn of the script takes a time that is not negative. *)
Definition time_moves_forward (turns : list Turn) : bool :=
  forallb (fun tn => Qle_bool 0 (elapsed tn)) turns.

(** The events posted, in order. *)
Fixpoint posts (l : list Obs) : list TimerEvent :=
  match l with
  | [] => []
  | ObsPost event :: l' => event :: posts l'
  | _ :: l' => posts l'
  end.

(** ** Further timers and worlds *)

(** A timer that does not skip, freshly started at time 0. *)
Definition plain_world : World :=
  start_world (demo_timer (Some (Callback 0)) None false false) 0 [].


(** A timer without callback, freshly started at time 0. *)
Definition posting_world : World :=
  start_world (demo_timer None None true false) 0 [].

(** The timer is paused during its first sleep and resumed seven seconds
    later. *)
Definition pause_then_resume_world : World :=
  start_world (demo_timer (Some (Callback 0)) None true false) 0
    [mkTurn 0 [CallPause] Returns; mkTurn 5 [] Returns; mkTurn 2 [CallResume] Returns].

(** * Properties *)

(** ** Numerics *)

Lemma Qltb_lt (a b : Q) : Qltb a b = true <-> (a < b)%Q.
Proof.
  unfold Qltb. rewrite negb_true_iff. split; intro H.
  - apply Qnot_le_lt. intro Hle. apply Qle_bool_iff in Hle. congruence.
  - destruct (Qle_bool b a) eqn:E; [|reflexivity].
    apply Qle_bool_iff in E. exfalso. apply (Qlt_not_le _ _ H E).
Qed.

Lemma Qltb_ge (a b : Q) : Qltb a b = false <-> (b <= a)%Q.
Proof.
  unfold Qltb. rewrite negb_false_iff. apply Qle_bool_iff.
Qed.

Lemma Qfloor_unique (x : Q) (n : Z) :
  (inject_Z n <= x)%Q -> (x < inject_Z (n + 1))%Q -> Qfloor x = n.
Proof.
  intros Hlo Hhi.
  pose proof (Qfloor_le x) as Hf. pose proof (Qlt_floor x) as Hc.
  assert (H1 : (inject_Z n < inject_Z (Qfloor x + 1))%Q) by (eapply Qle_lt_trans; eassumption).
  assert (H2 : (inject_Z (Qfloor x) < inject_Z (n + 1))%Q) by (eapply Qle_lt_trans; eassumption).
  rewrite <- Zlt_Qlt in H1, H2. lia.
Qed.

Lemma Qfloor_lower (x : Q) (n : Z) : (inject_Z n <= x)%Q -> n <= Qfloor x.
Proof.
  intro H. rewrite <- (Qfloor_Z n). now apply Qfloor_resp_le.
Qed.

Lemma py_int_ge_floor (x : Q) : Qfloor x <= py_int x.
Proof.
  destruct x as [n d]. unfold py_int, Qfloor. simpl.
  destruct (Z_le_gt_dec 0 n) as [Hn|Hn].
  - rewrite Z.quot_div_nonneg by lia. lia.
  - pose proof (Z.quot_opp_l n (Zpos d) ltac:(lia)) as Hq.
    assert (Hn' : 0 <= - n) by lia.
    assert (- n ÷ Zpos d = (- n) / Zpos d) by (apply Z.quot_div_nonneg; lia).
    assert (n ÷ Z.pos d = - ((- n) / Z.pos d)) by lia.
    rewrite H0.
    pose proof (Z.mul_div_le (-n) (Zpos d) ltac:(lia)).
    assert (n / Z.pos d < - (- n / Z.pos d) + 1); [|lia].
    apply Z.div_lt_upper_bound; nia.
Qed.


(** ** The arithmetic of a skip *)

Section SkipArithmetic.
Variables (now start interval : Q) (count : Z).
Hypothesis interval_pos : (0 < interval)%Q.
Hypothesis overdue : (start + inject_Z (count + 1) * interval < now)%Q.

Lemma quotient_times_interval : (((now - start) / interval) * interval == now - start)%Q.
Proof. field. lra. Qed.

Lemma overdue_quotient : (inject_Z (count + 1) < ((now - start) / interval))%Q.
Proof.
  apply Qlt_shift_div_l; [assumption | lra].
Qed.

Lemma skipped_floor_bound : count + 2 <= Qfloor (((now - start) / interval) + 1).
Proof.
  apply Qfloor_lower. pose proof overdue_quotient as H.
  replace (count + 2) with ((count + 1) + 1) by lia.
  rewrite (inject_Z_plus (count + 1) 1). change (inject_Z 1) with 1%Q. lra.
Qed.

Lemma skipped_count_gt : count + 2 <= py_int (((now - start) / interval) + 1).
Proof.
  pose proof skipped_floor_bound.
  pose proof (py_int_ge_floor (((now - start) / interval) + 1)). lia.
Qed.

Lemma floor_succ :
  Qfloor (((now - start) / interval) + 1) = Qfloor ((now - start) / interval) + 1.
Proof.
  apply Qfloor_unique.
  - rewrite inject_Z_plus. change (inject_Z 1) with 1%Q.
    pose proof (Qfloor_le ((now - start) / interval)). lra.
  - rewrite (inject_Z_plus (Qfloor ((now - start) / interval) + 1) 1).
    change (inject_Z 1) with 1%Q.
    pose proof (Qlt_floor ((now - start) / interval)). lra.
Qed.


Lemma skipped_not_overdue :
  (now < start + inject_Z (Qfloor ((now - start) / interval) + 1) * interval)%Q.
Proof.
  pose proof (Qlt_floor ((now - start) / interval)) as H.
  pose proof quotient_times_interval as E.
  assert (((now - start) / interval) * interval <
          inject_Z (Qfloor ((now - start) / interval) + 1) * interval)%Q
    by (apply Qmult_lt_compat_r; assumption).
  lra.
Qed.

Lemma interval_nonzero : Qeq_bool interval 0 = false.
Proof.
  destruct (Qeq_bool interval 0) eqn:E; [|reflexivity].
  apply Qeq_bool_eq in E. lra.
Qed.

Lemma skip_count_value (w : World) :
  skip_count now start interval w = (Ok (py_int (((now - start) / interval) + 1)), w).
Proof.
  unfold skip_count, bind, py_truediv. rewrite interval_nonzero. reflexivity.
Qed.

End SkipArithmetic.

(** ** Unfolding the loop *)

Lemma run_loop_done (fuel : nat) (repeat : option Z) (interval : Q)
    (count : Z) (start : Q) (w : World) :
  loop_cond repeat count = false ->
  run_loop fuel repeat interval count start w = (Ok tt, w).
Proof. intro H. destruct fuel; simpl; rewrite H; reflexivity. Qed.

Lemma run_loop_step (fuel : nat) (repeat : option Z) (interval : Q)
    (count : Z) (start : Q) (w : World) :
  loop_cond repeat count = true ->
  run_loop (S fuel) repeat interval count start w =
  match iteration interval count start w with
  | (Ok (Continue count' start'), w1) => run_loop fuel repeat interval count' start' w1
  | (Ok Break, w1) => (Ok tt, w1)
  | (Raise e, w1) => (Raise e, w1)
  | (Blocked, w1) => (Blocked, w1)
  | (OutOfFuel, w1) => (OutOfFuel, w1)
  end.
Proof.
  intro H. simpl. rewrite H. unfold bind.
  destruct (iteration interval count start w) as [[[c s|]|e| |] w1]; reflexivity.
Qed.

Lemma iteration_skip (interval : Q) (count : Z) (start : Q) (w : World) :
  _skip (self w) = true ->
  (0 < interval)%Q ->
  (start + inject_Z (count + 1) * interval < clock w)%Q ->
  iteration interval count start w =
  (Ok (Continue (py_int ((clock w - start) / interval + 1)) start), w).
Proof.
  intros Hskip Hpos Hlate. unfold iteration, bind, get_time, get_self.
  rewrite Hskip. apply Qltb_lt in Hlate. rewrite Hlate. simpl.
  rewrite (skip_count_value _ _ _ Hpos). reflexivity.
Qed.



(** ** A quiet environment *)

Lemma ticks_app (l1 l2 : list Obs) : ticks (l1 ++ l2) = ticks l1 ++ ticks l2.
Proof.
  induction l1 as [|o l1 IH]; simpl; [reflexivity|].
  destruct (tick_count o); simpl; rewrite IH; reflexivity.
Qed.

Lemma steady_inv (w : World) :
  steady w = true ->
  cancelling w = false /\ fst (_active (self w)) = true /\ _reset (self w) = false /\
  app_exit w = false /\ target_alive w = true /\ forallb quiet_turn (script w) = true.
Proof.
  unfold steady. rewrite !andb_true_iff, !negb_true_iff. tauto.
Qed.

Lemma quiet_turn_inv (tn : Turn) :
  quiet_turn tn = true -> calls tn = [] /\ outcome tn = Returns.
Proof.
  unfold quiet_turn. destruct (calls tn), (outcome tn); intro; try discriminate; auto.
Qed.

Lemma next_turn_quiet (w : World) :
  steady w = true ->
  calls (fst (next_turn w)) = [] /\ outcome (fst (next_turn w)) = Returns /\
  steady (snd (next_turn w)) = true /\
  self (snd (next_turn w)) = self w /\ log (snd (next_turn w)) = log w /\
  clock (snd (next_turn w)) = clock w.
Proof.
  intro H. unfold next_turn. destruct w as [t c cn ta ae sc lg]. simpl.
  destruct sc as [|tn rest]; simpl.
  - repeat split; auto.
  - apply steady_inv in H. simpl in H. destruct H as (Hc & Ha & Hr & He & Ht & Hq).
    apply andb_true_iff in Hq. destruct Hq as [Htn Hrest].
    apply quiet_turn_inv in Htn. destruct Htn as [H1 H2].
    repeat split; auto.
    unfold steady. simpl. rewrite Hc, Ha, Hr, He, Ht, Hrest. reflexivity.
Qed.

Lemma suspend_quiet (d : Q) (w : World) :
  steady w = true ->
  exists tn w',
    suspend d w = (Ok tn, w') /\ outcome tn = Returns /\ steady w' = true /\
    self w' = self w /\ log w' = log w.
Proof.
  intro H. unfold suspend.
  destruct (next_turn_quiet w H) as (Hcalls & Hout & Hst & Hself & Hlog & _).
  destruct (next_turn w) as [tn w1]. simpl in *.
  unfold env_turn. rewrite Hcalls. simpl.
  pose proof (steady_inv _ Hst) as (Hc & _).
  destruct w1 as [t c cn ta ae sc lg]. simpl in *. subst cn.
  eexists. eexists. split; [reflexivity|]. repeat split; auto.
Qed.

Lemma sleep_quiet (d : Q) (w : World) :
  steady w = true ->
  exists w',
    sleep d w = (Ok tt, w') /\ steady w' = true /\
    self w' = self w /\ log w' = log w ++ [ObsSleep d].
Proof.
  intro H. unfold sleep, bind.
  assert (Hs : steady (observe (ObsSleep d) w) = true) by exact H.
  destruct (suspend_quiet d _ Hs) as (tn & w' & E & _ & Hst & Hself & Hlog).
  rewrite E. exists w'. repeat split; auto.
Qed.

Lemma active_wait_quiet (w : World) :
  steady w = true ->
  exists w',
    active_wait w = (Ok tt, w') /\ steady w' = true /\ log w' = log w /\
    _reset (self w') = false /\ _callback (self w') = _callback (self w) /\
    name (self w') = name (self w) /\ _skip (self w') = _skip (self w).
Proof.
  intro H. unfold active_wait.
  pose proof (steady_inv _ H) as (Hc & Ha & Hr & He & Ht & Hq).
  destruct w as [t c cn ta ae sc lg]. simpl in *.
  unfold steady in H. simpl in H.
  destruct t as [tr itv nm own cb rp sk tk rs op [e|]]; unfold _active in *; simpl in *.
  - subst e. eexists. split; [reflexivity|]. repeat split; auto.
  - rewrite Ha. simpl. eexists. split; [reflexivity|].
    unfold steady; simpl. unfold _active; simpl. rewrite Ha in H. repeat split; auto.
Qed.

Lemma tick_quiet (next_timer : Q) (count : Z) (w : World) :
  steady w = true ->
  exists w',
    _tick next_timer count w = (Ok tt, w') /\ steady w' = true /\
    self w' = self w /\
    log w' = log w ++ dispatch_obs (self w) next_timer count.
Proof.
  intro H. unfold _tick, bind at 1.
  pose proof (steady_inv _ H) as (Hc & Ha & Hr & He & Ht & Hq).
  unfold bind at 1. unfold get_app_exit at 1. cbn [app_exit observe].
  rewrite He. unfold bind at 1. unfold get_self at 1. cbn [self observe].
  unfold dispatch_obs.
  destruct (_callback (self w)) as [cb|] eqn:Hcb.
  - unfold try_except, invoke.
    assert (Hs : steady (observe (ObsInvoke cb)
                           (observe (ObsTick next_timer count) w)) = true) by exact H.
    destruct (next_turn_quiet _ Hs) as (Hcalls & Hout & Hst & Hself & Hlog & _).
    destruct (next_turn _) as [tn w1]. simpl in *.
    rewrite Hout. unfold env_turn. rewrite Hcalls. simpl.
    eexists. split; [reflexivity|].
    destruct w1 as [t1 c1 cn1 ta1 ae1 sc1 lg1]. simpl in *.
    repeat split; auto. rewrite Hlog, <- app_assoc. reflexivity.
  - unfold bind, target, post_message. cbn [target_alive observe]. rewrite Ht.
    eexists. split; [reflexivity|]. cbn [self log observe].
    repeat split; auto. rewrite <- app_assoc. reflexivity.
Qed.

Lemma dispatch_obs_shape (t : Timer) (next_timer : Q) (count : Z) :
  exists o, is_dispatch o = true /\ dispatch_obs t next_timer count = [ObsTick next_timer count; o].
Proof.
  unfold dispatch_obs. destruct (_callback t); eexists; (split; [|reflexivity]); reflexivity.
Qed.

Lemma iteration_quiet (interval : Q) (count : Z) (start : Q) (w : World) :
  steady w = true ->
  _skip (self w) = false ->
  exists w' d o,
    iteration interval count start w = (Ok (Continue (count + 1) start), w') /\
    steady w' = true /\ _skip (self w') = false /\ is_dispatch o = true /\
    log w' =
    log w ++ [ObsSleep d; ObsTick (start + inject_Z (count + 1) * interval) (count + 1); o].
Proof.
  intros H Hskip. unfold iteration.
  unfold bind at 1. unfold get_time at 1.
  unfold bind at 1. unfold get_self at 1. rewrite Hskip. cbn [andb].
  unfold bind at 1. unfold get_time at 1.
  unfold bind at 1.
  destruct (sleep_quiet (py_max0 (start + inject_Z (count + 1) * interval - clock w)) w H)
    as (w1 & E1 & Hst1 & Hself1 & Hlog1).
  rewrite E1. unfold bind at 1.
  destruct (active_wait_quiet w1 Hst1) as (w2 & E2 & Hst2 & Hlog2 & Hr2 & Hcb2 & Hnm2 & Hsk2).
  rewrite E2. unfold reset_or_tick. unfold bind at 1. unfold get_self at 1.
  rewrite Hr2. unfold try_except, bind.
  destruct (tick_quiet (start + inject_Z (count + 1) * interval) (count + 1) w2 Hst2)
    as (w3 & E3 & Hst3 & Hself3 & Hlog3).
  rewrite E3. unfold ret.
  destruct (dispatch_obs_shape (self w2) (start + inject_Z (count + 1) * interval) (count + 1))
    as (o & Ho & Eo).
  exists w3, (py_max0 (start + inject_Z (count + 1) * interval - clock w)), o.
  split; [reflexivity|]. split; [assumption|]. split.
  - rewrite Hself3, Hsk2, Hself1. assumption.
  - split; [assumption|].
    rewrite Hlog3, Hlog2, Hlog1, Eo, <- app_assoc. reflexivity.
Qed.

Lemma filter_dispatch_cycle (d : Q) (nt : Q) (c : Z) (o : Obs) :
  is_dispatch o = true ->
  filter is_dispatch [ObsSleep d; ObsTick nt c; o] = [o].
Proof. intro H. simpl. rewrite H. reflexivity. Qed.

Lemma ticks_cycle (d : Q) (nt : Q) (c : Z) (o : Obs) :
  is_dispatch o = true ->
  ticks [ObsSleep d; ObsTick nt c; o] = [c].
Proof. destruct o; simpl; intro H; try discriminate; reflexivity. Qed.

Lemma run_loop_quiet (n : nat) :
  forall (fuel : nat) (r : Z) (interval : Q) (count : Z) (start : Q) (w : World),
    steady w = true ->
    _skip (self w) = false ->
    (n <= fuel)%nat ->
    r + 1 - count = Z.of_nat n ->
    exists w',
      run_loop fuel (Some r) interval count start w = (Ok tt, w') /\
      ticks (log w') = ticks (log w) ++ counts_from count n /\
      List.length (filter is_dispatch (log w')) =
      (List.length (filter is_dispatch (log w)) + n)%nat.
Proof.
  induction n as [|n IH]; intros fuel r interval count start w Hst Hskip Hfuel Hn.
  - exists w. split.
    + apply run_loop_done. simpl. apply Z.leb_gt. lia.
    + simpl. rewrite app_nil_r, Nat.add_0_r. auto.
  - destruct fuel as [|fuel]; [lia|].
    rewrite run_loop_step by (simpl; apply Z.leb_le; lia).
    destruct (iteration_quiet interval count start w Hst Hskip)
      as (w1 & d & o & E & Hst1 & Hskip1 & Ho & Hlog).
    rewrite E.
    destruct (IH fuel r interval (count + 1) start w1 Hst1 Hskip1 ltac:(lia) ltac:(lia))
      as (w' & E' & Hticks & Hdisp).
    exists w'. split; [assumption|]. split.
    + rewrite Hticks, Hlog, ticks_app, (ticks_cycle _ _ _ _ Ho), <- app_assoc. reflexivity.
    + rewrite Hdisp, Hlog, filter_app, (filter_dispatch_cycle _ _ _ _ Ho), length_app. simpl. lia.
Qed.

(** C7.  A fresh timer with [repeat = r >= 0], [skip=False] and
    [pause=False], run in an environment that makes no call and whose
    callbacks return: [_run_timer] ends normally, the dispatched counts are
    1, 2, ..., r + 1, and the callback is invoked (or the event posted)
    exactly r + 1 times. *)
Theorem repeat_bound_dispatches (cls : TimerClass) (event_target : string) (interval : Q)
    (nm : option string) (callback : option TimerCallback) (r : Z)
    (now : Q) (turns : list Turn) (fuel : nat) :
  0 <= r ->
  forallb quiet_turn turns = true ->
  (Z.to_nat r + 1 <= fuel)%nat ->
  let t := fst (__init__ cls event_target interval nm callback (Some r) false false) in
  exists w',
    _run_timer fuel (start_world t now turns) = (Ok tt, w') /\
    ticks (log w') = counts_from 0 (Z.to_nat r + 1) /\
    List.length (filter is_dispatch (log w')) = (Z.to_nat r + 1)%nat.
Proof.
  intros Hr Hq Hfuel t.
  unfold _run_timer, try_except, _run, force_active.
  unfold bind at 1. unfold get_self at 1.
  unfold bind at 1. unfold bind at 1.
  set (w0 := with_self _ _).
  assert (Hst0 : steady w0 = true) by (unfold steady; simpl; exact Hq).
  destruct (active_wait_quiet w0 Hst0) as (w1 & E1 & Hst1 & Hlog1 & _ & _ & _ & Hsk1).
  rewrite E1. unfold bind at 1. unfold get_time at 1.
  destruct (run_loop_quiet (Z.to_nat r + 1) fuel r interval 0 (clock w1) w1 Hst1)
    as (w' & E & Hticks & Hdisp); [rewrite Hsk1; reflexivity | lia | lia |].
  change (_repeat (self (start_world t now turns))) with (Some r).
  change (_interval (self (start_world t now turns))) with interval.
  rewrite E. exists w'. split; [reflexivity|].
  rewrite Hticks, Hdisp, Hlog1. split; reflexivity.
Qed.

(** ** What the environment and the primitives leave alone *)

Lemma env_call_log (w : World) (c : Call) :
  log (env_call w c) = log w /\ script (env_call w c) = script w.
Proof.
  destruct c; simpl; auto.
  destruct (stop (self w)); simpl; auto.
Qed.

Lemma env_calls_log (cs : list Call) :
  forall w, log (fold_left env_call cs w) = log w /\
            script (fold_left env_call cs w) = script w.
Proof.
  induction cs as [|c cs IH]; intro w; simpl; [auto|].
  destruct (IH (env_call w c)) as [H1 H2]. destruct (env_call_log w c) as [H3 H4].
  split; congruence.
Qed.

Lemma env_turn_log (d : Q) (tn : Turn) (w : World) :
  log (env_turn d tn w) = log w /\ script (env_turn d tn w) = script w.
Proof.
  unfold env_turn.
  destruct (env_calls_log (calls tn) (with_clock (clock w + d + elapsed tn) w)) as [H1 H2].
  split; [rewrite H1 | rewrite H2]; reflexivity.
Qed.

Lemma next_turn_log (w : World) : log (snd (next_turn w)) = log w.
Proof. unfold next_turn. destruct (script w); reflexivity. Qed.

Lemma suspend_log (d : Q) (w : World) : log (snd (suspend d w)) = log w.
Proof.
  unfold suspend. pose proof (next_turn_log w) as H.
  destruct (next_turn w) as [tn w1]. simpl in H.
  destruct (env_turn_log d tn w1) as [H1 _].
  destruct (cancelling (env_turn d tn w1)); simpl; congruence.
Qed.

Lemma sleep_log (d : Q) (w : World) : log (snd (sleep d w)) = log w ++ [ObsSleep d].
Proof.
  unfold sleep, bind. pose proof (suspend_log d (observe (ObsSleep d) w)) as H.
  destruct (suspend d (observe (ObsSleep d) w)) as [[tn|e| |] w1]; exact H.
Qed.

Lemma wait_set_log (turns : list Turn) :
  forall w, log (snd (wait_set turns w)) = log w.
Proof.
  induction turns as [|tn rest IH]; intro w; simpl; [reflexivity|].
  destruct (env_turn_log 0 tn (with_script rest w)) as [H _].
  destruct (cancelling _); [exact H|].
  destruct (fst (_active _)); [exact H|].
  rewrite IH. exact H.
Qed.

Lemma active_wait_log (w : World) : log (snd (active_wait w)) = log w.
Proof.
  unfold active_wait. destruct (_active (self w)) as [[|] t]; [reflexivity|].
  rewrite wait_set_log. reflexivity.
Qed.

Lemma invoke_log (cb : TimerCallback) (w : World) :
  log (snd (invoke cb w)) = log w ++ [ObsInvoke cb].
Proof.
  unfold invoke. pose proof (next_turn_log (observe (ObsInvoke cb) w)) as H.
  destruct (next_turn _) as [tn w1]. simpl in H.
  destruct (env_turn_log 0 tn w1) as [H1 _].
  destruct (outcome tn); simpl; congruence.
Qed.

Lemma appends_bind {A B} (c : M A) (k : A -> M B) :
  appends c -> (forall a, appends (k a)) -> appends (bind c k).
Proof.
  intros Hc Hk w. unfold bind. destruct (Hc w) as [l Hl].
  destruct (c w) as [[a|e| |] w1]; simpl in *; try (exists l; assumption).
  destruct (Hk a w1) as [l' Hl']. exists (l ++ l'). rewrite Hl', Hl, app_assoc. reflexivity.
Qed.

Lemma appends_handle {A} (clauses : list ((exn -> bool) * (exn -> M A))) (e : exn) :
  Forall (fun cl => forall e', appends (snd cl e')) clauses -> appends (handle clauses e).
Proof.
  induction 1 as [|[h k] rest Hk _ IH]; simpl.
  - intro w. exists []. simpl. rewrite app_nil_r. reflexivity.
  - destruct (h e); [apply Hk | apply IH].
Qed.

Lemma appends_try {A} (c : M A) (clauses : list ((exn -> bool) * (exn -> M A))) :
  appends c ->
  Forall (fun cl => forall e, appends (snd cl e)) clauses ->
  appends (try_except c clauses).
Proof.
  intros Hc Hk w. unfold try_except. destruct (Hc w) as [l Hl].
  destruct (c w) as [[a|e| |] w1]; simpl in *; try (exists l; assumption).
  destruct (appends_handle clauses e Hk w1) as [l' Hl'].
  exists (l ++ l'). rewrite Hl', Hl, app_assoc. reflexivity.
Qed.

Lemma appends_same {A} (c : M A) :
  (forall w, log (snd (c w)) = log w) -> appends c.
Proof. intros H w. exists []. rewrite app_nil_r. apply H. Qed.

Lemma appends_ret {A} (a : A) : appends (ret a).
Proof. apply appends_same. reflexivity. Qed.

Lemma appends_raise {A} (e : exn) : appends (@raise A e).
Proof. apply appends_same. reflexivity. Qed.

Lemma appends_tick (next_timer : Q) (count : Z) : appends (_tick next_timer count).
Proof.
  unfold _tick.
  apply appends_bind; [intro w; exists [ObsTick next_timer count]; reflexivity|]. intros ?.
  apply appends_bind; [apply appends_same; reflexivity|]. intros [|]; [apply appends_ret|].
  apply appends_bind; [apply appends_same; reflexivity|]. intro t.
  destruct (_callback t) as [cb|].
  - apply appends_try.
    + intro w. exists [ObsInvoke cb]. apply invoke_log.
    + repeat constructor; simpl.
      * intro. apply appends_raise.
      * intros e w. exists [ObsHandled e]. reflexivity.
  - apply appends_bind.
    + apply appends_same. intro w. unfold target. destruct (target_alive w); reflexivity.
    + intros ? w. eexists. reflexivity.
Qed.

Lemma appends_reset_or_tick (next_timer : Q) (count : Z) (start : Q) :
  appends (reset_or_tick next_timer count start).
Proof.
  unfold reset_or_tick.
  apply appends_bind; [apply appends_same; reflexivity|]. intro t.
  destruct (_reset t).
  - apply appends_bind; [apply appends_same; reflexivity|]. intros ?.
    apply appends_bind; [apply appends_same; reflexivity|]. intros ?. apply appends_ret.
  - apply appends_try; [|repeat constructor; intro; apply appends_ret].
    apply appends_bind; [apply appends_tick|]. intros ?. apply appends_ret.
Qed.

Lemma appends_iteration (interval : Q) (count : Z) (start : Q) :
  appends (iteration interval count start).
Proof.
  unfold iteration.
  apply appends_bind; [apply appends_same; reflexivity|]. intro now.
  apply appends_bind; [apply appends_same; reflexivity|]. intro t.
  destruct (_skip t && _).
  - apply appends_bind; [|intro; apply appends_ret].
    unfold skip_count. apply appends_bind; [|intro; apply appends_ret].
    unfold py_truediv. destruct (Qeq_bool interval 0); [apply appends_raise|apply appends_ret].
  - apply appends_bind; [apply appends_same; reflexivity|]. intro now'.
    apply appends_bind; [intro w; eexists; apply sleep_log|]. intros ?.
    apply appends_bind; [apply appends_same; apply active_wait_log|]. intros ?.
    apply appends_reset_or_tick.
Qed.

Lemma appends_run_loop (fuel : nat) :
  forall (repeat : option Z) (interval : Q) (count : Z) (start : Q),
    appends (run_loop fuel repeat interval count start).
Proof.
  induction fuel as [|fuel IH]; intros repeat interval count start; simpl;
    (destruct (loop_cond repeat count); [|apply appends_ret]).
  - apply appends_same. reflexivity.
  - apply appends_bind; [apply appends_iteration|].
    intros [c s|]; [apply IH|apply appends_ret].
Qed.

(** ** A cycle that reaches the gate *)

Lemma iteration_due (interval : Q) (count : Z) (start : Q) (w : World) :
  skips interval count start w = false ->
  iteration interval count start w =
  (sleep_then_gate interval count start ;;
   reset_or_tick (fire_time start interval (count + 1)) (count + 1) start) w.
Proof.
  intro H. unfold skips, fire_time in H.
  unfold iteration, sleep_then_gate, fire_time.
  unfold bind at 1. unfold get_time at 1.
  unfold bind at 1. unfold get_self at 1. rewrite H.
  unfold bind at 1. unfold get_time at 1.
  unfold bind.
  destruct (sleep _ w) as [[[]|e| |] w1]; try reflexivity.
Qed.

Lemma run_loop_dispatch (fuel : nat) (repeat : option Z) (interval : Q)
    (count : Z) (start : Q) (w w1 : World) :
  loop_cond repeat count = true ->
  skips interval count start w = false ->
  sleep_then_gate interval count start w = (Ok tt, w1) ->
  run_loop (S fuel) repeat interval count start w =
  match reset_or_tick (fire_time start interval (count + 1)) (count + 1) start w1 with
  | (Ok (Continue count' start'), w2) => run_loop fuel repeat interval count' start' w2
  | (Ok Break, w2) => (Ok tt, w2)
  | (Raise e, w2) => (Raise e, w2)
  | (Blocked, w2) => (Blocked, w2)
  | (OutOfFuel, w2) => (OutOfFuel, w2)
  end.
Proof.
  intros Hc Hs Hg. rewrite run_loop_step by assumption.
  rewrite iteration_due by assumption. unfold bind at 1. rewrite Hg. reflexivity.
Qed.

(** *** A closed gate that nobody opens *)

Lemma env_call_paused (w : World) (c : Call) :
  opens c = false ->
  fst (_active (self w)) = false ->
  fst (_active (self (env_call w c))) = false /\
  cancelling (env_call w c) = cancelling w.
Proof.
  destruct c; simpl; try discriminate; intros _ H; auto.
Qed.

Lemma env_calls_paused (cs : list Call) :
  forall w,
    forallb (fun c => negb (opens c)) cs = true ->
    fst (_active (self w)) = false ->
    fst (_active (self (fold_left env_call cs w))) = false /\
    cancelling (fold_left env_call cs w) = cancelling w.
Proof.
  induction cs as [|c cs IH]; intros w Hcs Hw; simpl in *; [auto|].
  apply andb_true_iff in Hcs. destruct Hcs as [Hc Hcs].
  apply negb_true_iff in Hc.
  destruct (env_call_paused w c Hc Hw) as [H1 H2].
  destruct (IH (env_call w c) Hcs H1) as [H3 H4]. split; congruence.
Qed.

Lemma env_turn_paused (d : Q) (tn : Turn) (w : World) :
  forallb (fun c => negb (opens c)) (calls tn) = true ->
  fst (_active (self w)) = false ->
  fst (_active (self (env_turn d tn w))) = false /\
  cancelling (env_turn d tn w) = cancelling w.
Proof.
  intros Hc Hw. unfold env_turn.
  destruct (env_calls_paused (calls tn) (with_clock (clock w + d + elapsed tn) w) Hc Hw)
    as [H1 H2].
  split; [exact H1 | rewrite H2; reflexivity].
Qed.

Lemma wait_set_paused (turns : list Turn) :
  forall w,
    never_opened turns = true ->
    fst (_active (self w)) = false ->
    fst (wait_set turns w) =
    if cancelling w then
      match turns with [] => Blocked | _ => Raise CancelledError end
    else Blocked.
Proof.
  induction turns as [|tn rest IH]; intros w Hn Hw; simpl.
  - destruct (cancelling w); reflexivity.
  - simpl in Hn. apply andb_true_iff in Hn. destruct Hn as [Htn Hrest].
    destruct (env_turn_paused 0 tn (with_script rest w) Htn Hw) as [H1 H2].
    rewrite H2. simpl. destruct (cancelling w) eqn:Hc; [reflexivity|].
    rewrite H1. rewrite IH by assumption. rewrite H2. simpl. rewrite Hc. reflexivity.
Qed.

Lemma _active_cached (t : Timer) :
  fst (_active (snd (_active t))) = fst (_active t).
Proof.
  unfold _active. destruct (_active_cache t) as [b|] eqn:E; simpl.
  - rewrite E. reflexivity.
  - reflexivity.
Qed.




Lemma sleep_then_gate_log (interval : Q) (count : Z) (start : Q) (w : World) :
  log (snd (sleep_then_gate interval count start w)) =
  log w ++ [ObsSleep (py_max0 (fire_time start interval (count + 1) - clock w))].
Proof.
  unfold sleep_then_gate, bind.
  pose proof (sleep_log (py_max0 (fire_time start interval (count + 1) - clock w)) w) as H.
  destruct (sleep _ w) as [[[]|e| |] w1]; simpl in *; try exact H.
  rewrite active_wait_log. exact H.
Qed.


Lemma iteration_skips (interval : Q) (count : Z) (start : Q) (w : World) :
  skips interval count start w = true ->
  iteration interval count start w =
  if Qeq_bool interval 0 then (Raise (Exception_ "ZeroDivisionError"), w)
  else (Ok (Continue (py_int ((clock w - start) / interval + 1)) start), w).
Proof.
  intro H. unfold skips, fire_time in H. unfold iteration.
  unfold bind at 1. unfold get_time at 1.
  unfold bind at 1. unfold get_self at 1. rewrite H.
  unfold skip_count, py_truediv, bind. destruct (Qeq_bool interval 0); reflexivity.
Qed.


Lemma tick_target_gone (next_timer : Q) (count : Z) (w : World) :
  app_exit w = false -> _callback (self w) = None -> target_alive w = false ->
  _tick next_timer count w = (Raise EventTargetGone, observe (ObsTick next_timer count) w).
Proof.
  intros He Hcb Ht. unfold _tick.
  unfold bind at 1. unfold bind at 1. unfold get_app_exit at 1. cbn [app_exit observe].
  rewrite He. unfold bind at 1. unfold get_self at 1. cbn [self observe]. rewrite Hcb.
  unfold bind, target. cbn [target_alive observe]. rewrite Ht. reflexivity.
Qed.

Lemma run_loop_tick (fuel : nat) (repeat : option Z) (interval : Q)
    (count : Z) (start : Q) (w w1 : World) :
  loop_cond repeat count = true ->
  skips interval count start w = false ->
  sleep_then_gate interval count start w = (Ok tt, w1) ->
  _reset (self w1) = false ->
  run_loop (S fuel) repeat interval count start w =
  match _tick (fire_time start interval (count + 1)) (count + 1) w1 with
  | (Ok _, w2) => run_loop fuel repeat interval (count + 1) start w2
  | (Raise e, w2) => if is_EventTargetGone e then (Ok tt, w2) else (Raise e, w2)
  | (Blocked, w2) => (Blocked, w2)
  | (OutOfFuel, w2) => (OutOfFuel, w2)
  end.
Proof.
  intros Hc Hs Hg Hr.
  rewrite (run_loop_dispatch fuel repeat interval count start w w1) by assumption.
  unfold reset_or_tick. unfold bind at 1. unfold get_self at 1. rewrite Hr.
  unfold try_except. unfold bind at 1.
  destruct (_tick _ _ w1) as [[[]|e| |] w2]; try reflexivity.
  cbn [handle]. destruct (is_EventTargetGone e); reflexivity.
Qed.

Lemma tick_callback_raises (next_timer : Q) (count : Z) (w : World) (cb : TimerCallback)
    (tn : Turn) (w2 : World) (e : exn) :
  app_exit w = false -> _callback (self w) = Some cb ->
  next_turn (observe (ObsInvoke cb) (observe (ObsTick next_timer count) w)) = (tn, w2) ->
  outcome tn = Raises e ->
  _tick next_timer count w =
  if is_CancelledError e then (Raise e, env_turn 0 tn w2)
  else if is_Exception e then (Ok tt, observe (ObsHandled e) (env_turn 0 tn w2))
  else (Raise e, env_turn 0 tn w2).
Proof.
  intros He Hcb Hn Ho. unfold _tick.
  unfold bind at 1. unfold bind at 1. unfold get_app_exit at 1. cbn [app_exit observe].
  rewrite He. unfold bind at 1. unfold get_self at 1. cbn [self observe]. rewrite Hcb.
  unfold try_except, invoke. rewrite Hn, Ho.
  destruct e; reflexivity.
Qed.

(** C8, amended.  A cycle reaches the dispatch of a timer with a callback,
    and the callback raises [e].  If [e] is a [CancelledError] it leaves
    [_tick] and the loop unchanged.  If [e] is an instance of [Exception] it
    is handed to the host's error handler, [_tick] returns normally and the
    loop goes on with the next tick from the same anchor.  An exception that
    is neither leaves the loop without reaching the handler. *)
Theorem callback_exception_policy (fuel : nat) (repeat : option Z) (interval : Q)
    (count : Z) (start : Q) (w w1 w2 : World) (cb : TimerCallback) (tn : Turn) (e : exn) :
  loop_cond repeat count = true ->
  skips interval count start w = false ->
  sleep_then_gate interval count start w = (Ok tt, w1) ->
  _reset (self w1) = false ->
  app_exit w1 = false ->
  _callback (self w1) = Some cb ->
  let next_timer := fire_time start interval (count + 1) in
  next_turn (observe (ObsInvoke cb) (observe (ObsTick next_timer (count + 1)) w1)) = (tn, w2) ->
  outcome tn = Raises e ->
  (e = CancelledError ->
   _tick next_timer (count + 1) w1 = (Raise CancelledError, env_turn 0 tn w2) /\
   run_loop (S fuel) repeat interval count start w = (Raise CancelledError, env_turn 0 tn w2)) /\
  (is_Exception e = true ->
   _tick next_timer (count + 1) w1 = (Ok tt, observe (ObsHandled e) (env_turn 0 tn w2)) /\
   run_loop (S fuel) repeat interval count start w =
   run_loop fuel repeat interval (count + 1) start
            (observe (ObsHandled e) (env_turn 0 tn w2))) /\
  (is_CancelledError e = false -> is_Exception e = false ->
   run_loop (S fuel) repeat interval count start w = (Raise e, env_turn 0 tn w2)).
Proof.
  intros Hc Hs Hg Hr He Hcb next_timer Hn Ho.
  pose proof (tick_callback_raises next_timer (count + 1) w1 cb tn w2 e He Hcb Hn Ho)
    as Htick.
  rewrite (run_loop_tick fuel repeat interval count start w w1) by assumption.
  fold next_timer. rewrite Htick.
  split; [|split].
  - intros ->. simpl. auto.
  - intro Hex. destruct e; try discriminate; simpl; auto.
  - intros Hnc Hne. destruct e; try discriminate; reflexivity.
Qed.

(** ** Invariants of the world along the coroutine *)

Lemma keeps_same {A} (I : World -> Prop) (c : M A) :
  (forall w, snd (c w) = w) -> keeps I c.
Proof. intros H w Hw. rewrite H. assumption. Qed.

Lemma keeps_bind {A B} (I : World -> Prop) (c : M A) (k : A -> M B) :
  keeps I c -> (forall a, keeps I (k a)) -> keeps I (bind c k).
Proof.
  intros Hc Hk w H. unfold bind. pose proof (Hc w H) as H1.
  destruct (c w) as [[a|e| |] w1]; simpl in *; auto.
  apply Hk. assumption.
Qed.

Lemma keeps_handle {A} (I : World -> Prop)
    (clauses : list ((exn -> bool) * (exn -> M A))) (e : exn) :
  Forall (fun cl => forall e', keeps I (snd cl e')) clauses -> keeps I (handle clauses e).
Proof.
  induction 1 as [|[h k] rest Hk _ IH]; simpl.
  - intros w H. exact H.
  - destruct (h e); [apply Hk | apply IH].
Qed.

Lemma keeps_try {A} (I : World -> Prop) (c : M A)
    (clauses : list ((exn -> bool) * (exn -> M A))) :
  keeps I c ->
  Forall (fun cl => forall e, keeps I (snd cl e)) clauses ->
  keeps I (try_except c clauses).
Proof.
  intros Hc Hh w H. unfold try_except. pose proof (Hc w H) as H1.
  destruct (c w) as [[a|e| |] w1]; simpl in *; auto.
  apply keeps_handle; assumption.
Qed.

(** An invariant that one turn of the script, the bookkeeping of the task
    and the observations other than a post respect is an invariant of the
    whole loop. *)
Section LoopInvariant.
Variable I : World -> Prop.
Hypothesis I_suspend :
  forall w d, I w -> I (env_turn d (fst (next_turn w)) (snd (next_turn w))).
Hypothesis I_cancelling : forall w b, I w -> I (with_cancelling b w).
Hypothesis I_active : forall w, I w -> I (with_self (snd (_active (self w))) w).
Hypothesis I_observe : forall w o, is_post o = false -> I w -> I (observe o w).
Hypothesis I_clear_reset : forall w, I w -> I (with_self (with_reset false (self w)) w).
Hypothesis I_post : forall event, keeps I (target ;; post_message event).

Lemma keeps_suspend (d : Q) : keeps I (suspend d).
Proof.
  intros w H. unfold suspend. pose proof (I_suspend w d H) as H1.
  destruct (next_turn w) as [tn w1]. simpl in H1.
  destruct (cancelling (env_turn d tn w1)); simpl; auto.
Qed.

Lemma keeps_sleep (d : Q) : keeps I (sleep d).
Proof.
  intros w H. unfold sleep.
  apply (keeps_bind I (suspend d) (fun _ => ret tt)).
  - apply keeps_suspend.
  - intro. apply keeps_same. reflexivity.
  - apply I_observe; [reflexivity | assumption].
Qed.

Lemma keeps_wait_set (turns : list Turn) :
  forall w, I w -> script w = turns -> I (snd (wait_set turns w)).
Proof.
  induction turns as [|tn rest IH]; intros w H Hs; simpl; [assumption|].
  pose proof (I_suspend w 0 H) as H1. unfold next_turn in H1. rewrite Hs in H1.
  simpl in H1.
  destruct (cancelling _); [simpl; auto|].
  destruct (fst (_active _)); [simpl; auto|].
  apply IH; [assumption|].
  destruct (env_turn_log 0 tn (with_script rest w)) as [_ E]. rewrite E. reflexivity.
Qed.

Lemma keeps_active_wait : keeps I active_wait.
Proof.
  intros w H. unfold active_wait. pose proof (I_active w H) as H1.
  destruct (_active (self w)) as [[|] t]; simpl in *; [assumption|].
  apply keeps_wait_set; [assumption | reflexivity].
Qed.

Lemma keeps_invoke (cb : TimerCallback) : keeps I (invoke cb).
Proof.
  intros w H. unfold invoke.
  pose proof (I_suspend (observe (ObsInvoke cb) w) 0
                (I_observe w (ObsInvoke cb) eq_refl H)) as H1.
  destruct (next_turn _) as [tn w1]. simpl in H1.
  destruct (outcome tn); simpl; assumption.
Qed.

Lemma keeps_tick (next_timer : Q) (count : Z) : keeps I (_tick next_timer count).
Proof.
  unfold _tick.
  apply keeps_bind; [intros w H; apply I_observe; [reflexivity|assumption]|]. intros ?.
  apply keeps_bind; [apply keeps_same; reflexivity|]. intros [|]; [apply keeps_same; reflexivity|].
  apply keeps_bind; [apply keeps_same; reflexivity|]. intro t.
  destruct (_callback t) as [cb|].
  - apply keeps_try; [apply keeps_invoke|]. repeat constructor; simpl.
    + intro. apply keeps_same. reflexivity.
    + intros e w H. apply I_observe; [reflexivity|assumption].
  - apply I_post.
Qed.

Lemma keeps_reset_or_tick (next_timer : Q) (count : Z) (start : Q) :
  keeps I (reset_or_tick next_timer count start).
Proof.
  unfold reset_or_tick.
  apply keeps_bind; [apply keeps_same; reflexivity|]. intro t.
  destruct (_reset t).
  - apply keeps_bind; [apply keeps_same; reflexivity|]. intros ?.
    apply keeps_bind; [intros w H; apply I_clear_reset; assumption|]. intros ?.
    apply keeps_same. reflexivity.
  - apply keeps_try; [|repeat constructor; intro; apply keeps_same; reflexivity].
    apply keeps_bind; [apply keeps_tick|]. intros ?. apply keeps_same. reflexivity.
Qed.

Lemma keeps_sleep_then_gate (interval : Q) (count : Z) (start : Q) :
  keeps I (sleep_then_gate interval count start).
Proof.
  intros w H. unfold sleep_then_gate.
  apply (keeps_bind I (sleep _) (fun _ => active_wait)); auto using keeps_sleep.
  intro. apply keeps_active_wait.
Qed.

Lemma keeps_iteration (interval : Q) (count : Z) (start : Q) :
  keeps I (iteration interval count start).
Proof.
  unfold iteration.
  apply keeps_bind; [apply keeps_same; reflexivity|]. intro now.
  apply keeps_bind; [apply keeps_same; reflexivity|]. intro t.
  destruct (_skip t && _).
  - apply keeps_bind; [|intro; apply keeps_same; reflexivity].
    unfold skip_count. apply keeps_bind; [|intro; apply keeps_same; reflexivity].
    unfold py_truediv. destruct (Qeq_bool interval 0); apply keeps_same; reflexivity.
  - apply keeps_bind; [apply keeps_same; reflexivity|]. intro now'.
    apply keeps_bind; [apply keeps_sleep|]. intros ?.
    apply keeps_bind; [apply keeps_active_wait|]. intros ?.
    apply keeps_reset_or_tick.
Qed.

Lemma keeps_run_loop (fuel : nat) :
  forall (repeat : option Z) (interval : Q) (count : Z) (start : Q),
    keeps I (run_loop fuel repeat interval count start).
Proof.
  induction fuel as [|fuel IH]; intros repeat interval count start; simpl;
    (destruct (loop_cond repeat count); [|apply keeps_same; reflexivity]).
  - apply keeps_same. reflexivity.
  - apply keeps_bind; [apply keeps_iteration|].
    intros [c s|]; [apply IH|apply keeps_same; reflexivity].
Qed.
End LoopInvariant.

Lemma tick_log (next_timer : Q) (count : Z) (w : World) :
  exists l,
    log (snd (_tick next_timer count w)) = log w ++ ObsTick next_timer count :: l /\
    ticks l = [].
Proof.
  unfold _tick.
  unfold bind at 1. unfold bind at 1. unfold get_app_exit at 1. cbn [app_exit observe].
  destruct (app_exit w); [exists []; simpl; auto|].
  unfold bind at 1. unfold get_self at 1. cbn [self observe].
  destruct (_callback (self w)) as [cb|].
  - unfold try_except.
    pose proof (invoke_log cb (observe (ObsTick next_timer count) w)) as H.
    destruct (invoke cb _) as [[[]|e| |] w1]; cbn [snd log observe] in *;
      try (exists [ObsInvoke cb]; rewrite H, <- app_assoc; simpl; auto; fail).
    destruct e; simpl;
      try (exists [ObsInvoke cb]; rewrite H, <- app_assoc; simpl; auto; fail);
      (eexists [ObsInvoke cb; ObsHandled _]; rewrite H, <- !app_assoc; simpl; auto).
  - unfold bind, target, post_message. cbn [target_alive observe].
    destruct (target_alive w); cbn [snd log observe].
    + eexists [ObsPost _]. rewrite <- app_assoc. simpl. auto.
    + exists []. auto.
Qed.

(** *** A dead target *)

Lemma env_call_dead (w : World) (c : Call) :
  target_alive w = false -> target_alive (env_call w c) = false.
Proof. destruct c; simpl; auto. destruct (stop (self w)); simpl; auto. Qed.

Lemma env_calls_dead (cs : list Call) :
  forall w, target_alive w = false -> target_alive (fold_left env_call cs w) = false.
Proof. induction cs as [|c cs IH]; intros w H; simpl; auto using env_call_dead. Qed.

Lemma dead_suspend (posted : list Obs) (w : World) (d : Q) :
  target_dead posted w ->
  target_dead posted (env_turn d (fst (next_turn w)) (snd (next_turn w))).
Proof.
  intros [H1 H2]. split.
  - unfold env_turn. apply env_calls_dead. simpl.
    unfold next_turn. destruct (script w); assumption.
  - destruct (env_turn_log d (fst (next_turn w)) (snd (next_turn w))) as [E _].
    rewrite E, next_turn_log. assumption.
Qed.

Lemma dead_observe (posted : list Obs) (w : World) (o : Obs) :
  is_post o = false -> target_dead posted w -> target_dead posted (observe o w).
Proof.
  intros Ho [H1 H2]. split; [assumption|].
  simpl. rewrite filter_app. simpl. rewrite Ho, app_nil_r. assumption.
Qed.

Lemma dead_post (posted : list Obs) (event : TimerEvent) :
  keeps (target_dead posted) (target ;; post_message event).
Proof.
  intros w [H1 H2]. unfold bind, target. rewrite H1. simpl. split; assumption.
Qed.

Lemma dead_target_never_posts (fuel : nat) (repeat : option Z) (interval : Q)
    (count : Z) (start : Q) (w : World) :
  target_alive w = false ->
  filter is_post (log (snd (run_loop fuel repeat interval count start w))) =
  filter is_post (log w).
Proof.
  intro H.
  assert (K : keeps (target_dead (filter is_post (log w)))
                    (run_loop fuel repeat interval count start)).
  { apply keeps_run_loop.
    - intros; apply dead_suspend; assumption.
    - intros w0 b [H1 H2]. split; assumption.
    - intros w0 [H1 H2]. split; assumption.
    - intros; apply dead_observe; assumption.
    - intros w0 [H1 H2]. split; assumption.
    - apply dead_post. }
  destruct (K w (conj H eq_refl)) as [_ E]. exact E.
Qed.

(** *** No reset requested *)

Lemma _active_keeps_reset (t : Timer) : _reset (snd (_active t)) = _reset t.
Proof. unfold _active. destruct (_active_cache t); reflexivity. Qed.

Lemma env_call_no_reset (w : World) (c : Call) :
  is_reset_call c = false -> _reset (self w) = false -> _reset (self (env_call w c)) = false.
Proof.
  destruct c; simpl; try discriminate; intros _ H; auto;
    unfold stop, pause, resume, active_clear, active_set;
    try destruct (_task (self w)); simpl; rewrite ?_active_keeps_reset; auto.
Qed.

Lemma env_calls_no_reset (cs : list Call) :
  forall w,
    forallb (fun c => negb (is_reset_call c)) cs = true ->
    _reset (self w) = false -> _reset (self (fold_left env_call cs w)) = false.
Proof.
  induction cs as [|c cs IH]; intros w Hcs H; simpl in *; [assumption|].
  apply andb_true_iff in Hcs. destruct Hcs as [Hc Hcs]. apply negb_true_iff in Hc.
  apply IH; [assumption|]. apply env_call_no_reset; assumption.
Qed.

Lemma no_reset_suspend (w : World) (d : Q) :
  no_reset w -> no_reset (env_turn d (fst (next_turn w)) (snd (next_turn w))).
Proof.
  intros [H1 H2]. unfold no_reset.
  destruct (env_turn_log d (fst (next_turn w)) (snd (next_turn w))) as [_ E]. rewrite E.
  unfold env_turn, next_turn. destruct (script w) as [|tn rest] eqn:Es; simpl in *.
  - rewrite Es. auto.
  - apply andb_true_iff in H2. destruct H2 as [Htn Hrest]. split; [|assumption].
    apply env_calls_no_reset; assumption.
Qed.

Lemma no_reset_loop_invariant :
  (forall d, keeps no_reset (sleep d)) /\
  keeps no_reset active_wait /\
  (forall next_timer count, keeps no_reset (_tick next_timer count)).
Proof.
  assert (Ha : forall w, no_reset w -> no_reset (with_self (snd (_active (self w))) w)).
  { intros w [H1 H2]. split; [|assumption]. simpl.
    unfold _active. destruct (_active_cache (self w)); simpl; assumption. }
  assert (Hp : forall event, keeps no_reset (target ;; post_message event)).
  { intros event w [H1 H2]. unfold bind, target.
    destruct (target_alive w); simpl; split; assumption. }
  assert (Hw : forall (w : World) (w' : World),
             self w' = self w -> script w' = script w -> no_reset w -> no_reset w').
  { intros w w' E1 E2 [H1 H2]. split; [rewrite E1 | rewrite E2]; assumption. }
  split; [|split].
  - intro d. apply keeps_sleep.
    + intros; apply no_reset_suspend; assumption.
    + intros w b. apply Hw; reflexivity.
    + intros w o _. apply Hw; reflexivity.
  - apply keeps_active_wait.
    + intros; apply no_reset_suspend; assumption.
    + intros w b. apply Hw; reflexivity.
    + assumption.
  - intros next_timer count. apply keeps_tick.
    + intros; apply no_reset_suspend; assumption.
    + intros w o _. apply Hw; reflexivity.
    + assumption.
Qed.

Lemma no_reset_sleep_then_gate (interval : Q) (count : Z) (start : Q) :
  keeps no_reset (sleep_then_gate interval count start).
Proof.
  destruct no_reset_loop_invariant as (Hs & Ha & _).
  intros w H. unfold sleep_then_gate.
  apply (keeps_bind no_reset (sleep _) (fun _ => active_wait)); auto.
Qed.

Lemma skips_overdue (interval : Q) (count : Z) (start : Q) (w : World) :
  skips interval count start w = true ->
  _skip (self w) = true /\ (start + inject_Z (count + 1) * interval < clock w)%Q.
Proof.
  unfold skips, fire_time. intro H. apply andb_true_iff in H. destruct H as [H1 H2].
  split; [assumption|]. apply Qltb_lt. assumption.
Qed.

Lemma dispatched_counts_above (fuel : nat) :
  forall (repeat : option Z) (interval : Q) (count : Z) (start : Q) (w : World) (c0 : Z),
    (0 < interval)%Q ->
    c0 <= count ->
    no_reset w ->
    exists news,
      log (snd (run_loop fuel repeat interval count start w)) = log w ++ news /\
      Forall (fun c => c0 < c) (ticks news).
Proof.
  induction fuel as [|fuel IH]; intros repeat interval count start w c0 Hpos Hc0 Hnr.
  - exists []. simpl. destruct (loop_cond repeat count); simpl; rewrite app_nil_r; auto.
  - destruct (loop_cond repeat count) eqn:Hc.
    2:{ exists []. rewrite run_loop_done by assumption. simpl. rewrite app_nil_r. auto. }
    remember (run_loop (S fuel) repeat interval count start w) as res eqn:E.
    destruct (skips interval count start w) eqn:Hs.
    + rewrite run_loop_step, iteration_skips, (interval_nonzero _ Hpos) in E by assumption.
      destruct (skips_overdue _ _ _ _ Hs) as [_ Hlate].
      pose proof (skipped_count_gt _ _ _ _ Hpos Hlate) as Hgt.
      subst res. apply IH; [assumption | lia | assumption].
    + pose proof (sleep_then_gate_log interval count start w) as Hlog.
      pose proof (no_reset_sleep_then_gate interval count start w Hnr) as Hnr1.
      destruct (sleep_then_gate interval count start w) as [r w1] eqn:Eg.
      cbn [snd] in Hlog, Hnr1.
      destruct r as [[]|e| |].
      2,3,4: rewrite run_loop_step, iteration_due in E by assumption;
             unfold bind at 1 in E; rewrite Eg in E; subst res; cbn [snd];
             eexists; split; [exact Hlog | simpl; constructor].
      rewrite (run_loop_tick fuel repeat interval count start w w1) in E
        by (try assumption; apply Hnr1).
      destruct (tick_log (fire_time start interval (count + 1)) (count + 1) w1)
        as (l & Hl & Htl).
      destruct no_reset_loop_invariant as (_ & _ & Ht).
      pose proof (Ht (fire_time start interval (count + 1)) (count + 1) w1 Hnr1) as Hnr2.
      destruct (_tick _ _ w1) as [r2 w2]. cbn [snd] in Hl, Hnr2.
      assert (Hbase : log w2 =
                      log w ++ ObsSleep (py_max0 (fire_time start interval (count + 1) - clock w))
                            :: ObsTick (fire_time start interval (count + 1)) (count + 1) :: l).
      { rewrite Hl, Hlog, <- app_assoc. reflexivity. }
      destruct r2 as [[]|e| |].
      * destruct (IH repeat interval (count + 1) start w2 c0 Hpos ltac:(lia) Hnr2)
          as (news & Hnews & Hall).
        subst res. rewrite Hnews, Hbase, <- app_assoc. eexists. split; [reflexivity|].
        simpl. rewrite ticks_app, Htl. simpl. constructor; [lia | assumption].
      * subst res.
        assert (Hsnd : snd (if is_EventTargetGone e then (@Ok unit tt, w2) else (Raise e, w2)) = w2)
          by (destruct (is_EventTargetGone e); reflexivity).
        rewrite Hsnd, Hbase. eexists. split; [reflexivity|].
        simpl. rewrite Htl. constructor; [lia | constructor].
      * subst res. cbn [snd]. rewrite Hbase. eexists. split; [reflexivity|].
        simpl. rewrite Htl. constructor; [lia | constructor].
      * subst res. cbn [snd]. rewrite Hbase. eexists. split; [reflexivity|].
        simpl. rewrite Htl. constructor; [lia | constructor].
Qed.

Lemma fire_time_mono (start interval : Q) (k k' : Z) :
  (0 < interval)%Q -> k <= k' ->
  (fire_time start interval k <= fire_time start interval k')%Q.
Proof.
  intros Hpos Hk. unfold fire_time.
  assert (H : (inject_Z k * interval <= inject_Z k' * interval)%Q).
  { apply Qmult_le_compat_r; [rewrite <- Zle_Qle; assumption | lra]. }
  lra.
Qed.

(** C3, amended.  With skip enabled and a positive interval, when the loop
    finds the next tick overdue at the head of a cycle (and no reset is
    requested), every tick dispatched from then on has a fire time after the
    time of that check: no overdue tick is ever dispatched, and dispatch
    resumes at a count that is not yet overdue. *)
Theorem overdue_ticks_are_skipped (fuel : nat) (repeat : option Z) (interval : Q)
    (count : Z) (start : Q) (w : World) :
  _skip (self w) = true ->
  (0 < interval)%Q ->
  (fire_time start interval (count + 1) < clock w)%Q ->
  no_reset w ->
  exists news,
    log (snd (run_loop fuel repeat interval count start w)) = log w ++ news /\
    Forall (fun c => (clock w < fire_time start interval c)%Q) (ticks news) /\
    (forall k, (fire_time start interval k < clock w)%Q -> ~ In k (ticks news)).
Proof.
  intros Hskip Hpos Hlate Hnr.
  assert (Hmain : exists news,
             log (snd (run_loop fuel repeat interval count start w)) = log w ++ news /\
             Forall (fun c => (clock w < fire_time start interval c)%Q) (ticks news)).
  { destruct fuel as [|fuel].
    - exists []. simpl. destruct (loop_cond repeat count); simpl; rewrite app_nil_r; auto.
    - destruct (loop_cond repeat count) eqn:Hc.
      2:{ exists []. rewrite run_loop_done by assumption. simpl. rewrite app_nil_r. auto. }
      rewrite run_loop_step, iteration_skip by assumption.
      set (c' := py_int ((clock w - start) / interval + 1)).
      destruct (dispatched_counts_above fuel repeat interval c' start w c' Hpos
                  ltac:(lia) Hnr) as (news & Hnews & Hall).
      exists news. split; [assumption|].
      eapply Forall_impl; [|exact Hall]. intros c Hc'. cbv beta in Hc'.
      pose proof (skipped_not_overdue (clock w) start interval Hpos) as Hnot.
      pose proof (py_int_ge_floor ((clock w - start) / interval + 1)) as Hfl.
      rewrite (floor_succ (clock w) start interval) in Hfl. fold c' in Hfl.
      pose proof (fire_time_mono start interval
                    (Qfloor ((clock w - start) / interval) + 1) c Hpos ltac:(lia)) as Hm.
      unfold fire_time in *. lra. }
  destruct Hmain as (news & Hnews & Hall). exists news.
  split; [assumption|]. split; [assumption|].
  intros k Hk Hin. rewrite Forall_forall in Hall. specialize (Hall k Hin).
  cbv beta in Hall. lra.
Qed.

Lemma run_loop_reset (fuel : nat) (repeat : option Z) (interval : Q)
    (count : Z) (start : Q) (w w1 : World) :
  skips interval count start w = false ->
  sleep_then_gate interval count start w = (Ok tt, w1) ->
  _reset (self w1) = true ->
  iteration interval count start w =
  (Ok (Continue 0 (clock w1)), with_self (with_reset false (self w1)) w1).
Proof.
  intros Hs Hg Hr. rewrite iteration_due by assumption.
  unfold bind at 1. rewrite Hg. unfold reset_or_tick.
  unfold bind at 1. unfold get_self at 1. rewrite Hr. reflexivity.
Qed.

Lemma fresh_anchor_due (interval : Q) (start : Q) (w : World) :
  (0 <= interval)%Q -> clock w = start -> skips interval 0 start w = false.
Proof.
  intros Hi Hc. unfold skips. apply andb_false_iff. right.
  apply Qltb_ge. unfold fire_time. rewrite Hc.
  change (inject_Z (0 + 1)) with 1%Q. lra.
Qed.

Lemma fresh_anchor_first_tick (fuel : nat) :
  forall (repeat : option Z) (interval : Q) (start : Q) (w : World),
    (0 <= interval)%Q ->
    clock w = start ->
    exists news,
      log (snd (run_loop fuel repeat interval 0 start w)) = log w ++ news /\
      match first_tick news with
      | None => True
      | Some (_, c) => c = 1
      end.
Proof.
  induction fuel as [|fuel IH]; intros repeat interval start w Hi Hclk.
  - exists []. simpl. destruct (loop_cond repeat 0); simpl; rewrite app_nil_r; auto.
  - destruct (loop_cond repeat 0) eqn:Hc.
    2:{ exists []. rewrite run_loop_done by assumption. simpl. rewrite app_nil_r. auto. }
    pose proof (fresh_anchor_due interval start w Hi Hclk) as Hs.
    remember (run_loop (S fuel) repeat interval 0 start w) as res eqn:E.
    pose proof (sleep_then_gate_log interval 0 start w) as Hlog.
    destruct (sleep_then_gate interval 0 start w) as [r w1] eqn:Eg.
    cbn [snd] in Hlog.
    destruct r as [[]|e| |].
    2,3,4: rewrite run_loop_step, iteration_due in E by assumption;
           unfold bind at 1 in E; rewrite Eg in E; subst res; cbn [snd];
           eexists; split; [exact Hlog | simpl; exact Logic.I].
    destruct (_reset (self w1)) eqn:Hr.
    + rewrite run_loop_step, (run_loop_reset fuel repeat interval 0 start w w1) in E
        by assumption.
      destruct (IH repeat interval (clock w1)
                  (with_self (with_reset false (self w1)) w1) Hi eq_refl)
        as (news & Hnews & Hfirst).
      subst res. rewrite Hnews. cbn [log with_self]. rewrite Hlog, <- app_assoc.
      eexists. split; [reflexivity|]. simpl. exact Hfirst.
    + rewrite (run_loop_tick fuel repeat interval 0 start w w1) in E by assumption.
      destruct (tick_log (fire_time start interval (0 + 1)) (0 + 1) w1) as (l & Hl & _).
      destruct (_tick _ _ w1) as [r2 w2]. cbn [snd] in Hl.
      assert (Hrest : exists l', log (snd res) = log w2 ++ l').
      { subst res. destruct r2 as [[]|e| |].
        - apply appends_run_loop.
        - exists []. destruct (is_EventTargetGone e); simpl; rewrite app_nil_r; reflexivity.
        - exists []. simpl. rewrite app_nil_r. reflexivity.
        - exists []. simpl. rewrite app_nil_r. reflexivity. }
      destruct Hrest as (l' & Hl'). rewrite Hl', Hl, Hlog, <- !app_assoc.
      eexists. split; [reflexivity|]. simpl. reflexivity.
Qed.

Lemma reset_or_tick_log (next_timer : Q) (count : Z) (start : Q) (w : World) :
  _reset (self w) = false ->
  exists l,
    log (snd (reset_or_tick next_timer count start w)) =
    log w ++ ObsTick next_timer count :: l.
Proof.
  intro Hr. unfold reset_or_tick. unfold bind at 1. unfold get_self at 1. rewrite Hr.
  unfold try_except, bind.
  destruct (tick_log next_timer count w) as (l & Hl & _).
  destruct (_tick next_timer count w) as [[[]|e| |] w1]; cbn [snd] in *;
    try (exists l; exact Hl).
  cbn [handle]. destruct (is_EventTargetGone e); exists l; exact Hl.
Qed.

(** The counter of the loop is never negative. *)
Lemma iteration_keeps_count_nonneg (interval : Q) (count : Z) (start : Q)
    (w w' : World) (count' : Z) (start' : Q) :
  (0 < interval)%Q ->
  0 <= count ->
  iteration interval count start w = (Ok (Continue count' start'), w') ->
  0 <= count'.
Proof.
  intros Hpos Hc E.
  destruct (skips interval count start w) eqn:Hs.
  - rewrite iteration_skips, (interval_nonzero _ Hpos) in E by assumption.
    destruct (skips_overdue _ _ _ _ Hs) as [_ Hlate].
    pose proof (skipped_count_gt _ _ _ _ Hpos Hlate) as Hgt.
    inversion E; subst. lia.
  - rewrite iteration_due in E by assumption. unfold bind at 1 in E.
    destruct (sleep_then_gate interval count start w) as [[[]|e| |] w1]; try discriminate.
    unfold reset_or_tick in E. unfold bind at 1 in E. unfold get_self at 1 in E.
    destruct (_reset (self w1)).
    + inversion E; subst. lia.
    + unfold try_except, bind in E.
      destruct (_tick _ _ w1) as [[[]|e| |] w2]; try discriminate.
      * inversion E; subst. lia.
      * cbn [handle] in E. destruct (is_EventTargetGone e); discriminate.
Qed.

(** C6.  A cycle finds a reset requested after its sleep and gate wait: the
    cycle [continue]s with the count at 0 and the anchor at the current time,
    the flag is cleared, no tick is dispatched by this cycle, and the first
    tick dispatched afterwards, whatever the environment does, has count 1;
    when the next cycle passes the gate with no new reset, that tick carries
    the fire time [anchor + interval]. *)
Theorem reset_restarts_the_count (fuel : nat) (repeat : option Z) (interval : Q)
    (count : Z) (start : Q) (w w1 : World) :
  loop_cond repeat count = true ->
  skips interval count start w = false ->
  sleep_then_gate interval count start w = (Ok tt, w1) ->
  _reset (self w1) = true ->
  (0 <= interval)%Q ->
  let w2 := with_self (with_reset false (self w1)) w1 in
  iteration interval count start w = (Ok (Continue 0 (clock w1)), w2) /\
  _reset (self w2) = false /\
  ticks (log w2) = ticks (log w) /\
  run_loop (S fuel) repeat interval count start w =
  run_loop fuel repeat interval 0 (clock w1) w2 /\
  (exists news,
     log (snd (run_loop (S fuel) repeat interval count start w)) = log w2 ++ news /\
     match first_tick news with
     | None => True
     | Some (_, c) => c = 1
     end) /\
  (forall w3,
     sleep_then_gate interval 0 (clock w1) w2 = (Ok tt, w3) ->
     _reset (self w3) = false ->
     exists l,
       log (snd (iteration interval 0 (clock w1) w2)) =
       log w3 ++ ObsTick (fire_time (clock w1) interval 1) 1 :: l).
Proof.
  intros Hc Hs Hg Hr Hi w2.
  pose proof (run_loop_reset fuel repeat interval count start w w1 Hs Hg Hr) as Hit.
  fold w2 in Hit.
  assert (Hrun : run_loop (S fuel) repeat interval count start w =
                 run_loop fuel repeat interval 0 (clock w1) w2).
  { rewrite run_loop_step by assumption. rewrite Hit. reflexivity. }
  split; [exact Hit|]. split; [reflexivity|]. split.
  { pose proof (sleep_then_gate_log interval count start w) as Hlog.
    rewrite Hg in Hlog. cbn [snd] in Hlog. unfold w2. cbn [log with_self].
    rewrite Hlog, ticks_app. simpl. apply app_nil_r. }
  split; [exact Hrun|]. split.
  - rewrite Hrun. apply fresh_anchor_first_tick; [assumption | reflexivity].
  - intros w3 Hg3 Hr3.
    rewrite iteration_due by (apply fresh_anchor_due; [assumption | reflexivity]).
    unfold bind at 1. rewrite Hg3.
    apply (reset_or_tick_log (fire_time (clock w1) interval (0 + 1)) (0 + 1) (clock w1) w3 Hr3).
Qed.

Lemma env_call_clock (w : World) (c : Call) : clock (env_call w c) = clock w.
Proof. destruct c; simpl; auto. destruct (stop (self w)); reflexivity. Qed.

Lemma env_turn_clock (d : Q) (tn : Turn) (w : World) :
  clock (env_turn d tn w) = (clock w + d + elapsed tn)%Q.
Proof.
  unfold env_turn.
  assert (H : forall cs w0, clock (fold_left env_call cs w0) = clock w0).
  { induction cs as [|c cs IH]; intro w0; simpl; [reflexivity|].
    rewrite IH. apply env_call_clock. }
  rewrite H. reflexivity.
Qed.

Lemma wait_set_idle (idle : list Turn) :
  forall (rest : list Turn) (w : World),
    never_opened idle = true ->
    fst (_active (self w)) = false ->
    cancelling w = false ->
    exists w',
      wait_set (idle ++ rest) w = wait_set rest w' /\
      fst (_active (self w')) = false /\ cancelling w' = false /\
      log w' = log w /\ (clock w' == clock w + total_elapsed idle)%Q.
Proof.
  induction idle as [|tn idle IH]; intros rest w Hn Hw Hc.
  - exists w. simpl. repeat split; auto. lra.
  - simpl in Hn. apply andb_true_iff in Hn. destruct Hn as [Htn Hidle].
    destruct (env_turn_paused 0 tn (with_script (idle ++ rest) w) Htn Hw) as [H1 H2].
    destruct (IH rest (env_turn 0 tn (with_script (idle ++ rest) w)) Hidle H1
                ltac:(rewrite H2; exact Hc)) as (w' & E & Hw' & Hc' & Hlog & Hclk).
    exists w'. split.
    + simpl. rewrite H2. simpl. rewrite Hc, H1. exact E.
    + repeat split; auto.
      * rewrite Hlog.
        destruct (env_turn_log 0 tn (with_script (idle ++ rest) w)) as [El _].
        rewrite El. reflexivity.
      * rewrite Hclk, env_turn_clock. simpl. lra.
Qed.

Lemma wait_set_resumed (tn : Turn) (post : list Turn) (w : World) :
  calls tn = [CallResume] ->
  cancelling w = false ->
  exists w1,
    wait_set (tn :: post) w = (Ok tt, w1) /\
    clock w1 = (clock w + 0 + elapsed tn)%Q /\ log w1 = log w /\ script w1 = post.
Proof.
  intros Hcalls Hc. simpl. unfold env_turn. rewrite Hcalls. simpl.
  rewrite Hc. unfold resume, active_set. simpl.
  eexists. split; [reflexivity|]. simpl. auto.
Qed.

Lemma total_elapsed_app (l1 l2 : list Turn) :
  (total_elapsed (l1 ++ l2) == total_elapsed l1 + total_elapsed l2)%Q.
Proof.
  induction l1 as [|tn l1 IH]; simpl; [lra|]. rewrite IH. lra.
Qed.

(** C10.  A timer constructed with [pause=True] and started at time [now]:
    as long as nobody opens the gate the coroutine stays blocked and nothing
    is logged; once a turn resumes it, the loop starts with the anchor at the
    clock of that moment, which is [now] plus all the time spent paused, and
    the first tick dispatched has count 1. *)
Theorem paused_timer_anchor (cls : TimerClass) (event_target : string) (interval : Q)
    (nm : option string) (callback : option TimerCallback) (repeat : option Z)
    (skip : bool) (now : Q) (idle : list Turn) (tn : Turn) (post : list Turn)
    (fuel : nat) :
  never_opened idle = true ->
  calls tn = [CallResume] ->
  (0 <= interval)%Q ->
  let t := fst (__init__ cls event_target interval nm callback repeat skip true) in
  (exists w', _run fuel (start_world t now idle) = (Blocked, w') /\ log w' = []) /\
  (exists w1,
     _run fuel (start_world t now (idle ++ tn :: post)) =
     run_loop fuel repeat interval 0 (clock w1) w1 /\
     (clock w1 == now + total_elapsed (idle ++ [tn]))%Q /\
     log w1 = [] /\ script w1 = post /\
     match first_tick (log (snd (_run fuel (start_world t now (idle ++ tn :: post))))) with
     | None => True
     | Some (_, c) => c = 1
     end).
Proof.
  intros Hidle Hcalls Hi t.
  assert (Hrun : forall turns,
             _run fuel (start_world t now turns) =
             match wait_set turns
                     (with_self (snd (_active (self (start_world t now turns))))
                                (start_world t now turns)) with
             | (Ok _, w1) => run_loop fuel repeat interval 0 (clock w1) w1
             | (Raise e, w1) => (Raise e, w1)
             | (Blocked, w1) => (Blocked, w1)
             | (OutOfFuel, w1) => (OutOfFuel, w1)
             end).
  { intro turns. unfold _run, force_active, bind, get_self, get_time, active_wait. simpl.
    destruct (wait_set turns _) as [[[]|e| |] w1]; reflexivity. }
  split.
  - rewrite Hrun.
    set (w0 := with_self _ _).
    pose proof (wait_set_paused idle w0 Hidle eq_refl) as Hb.
    pose proof (wait_set_log idle w0) as Hl.
    destruct (wait_set idle w0) as [r w']. simpl in Hb, Hl. subst r.
    exists w'. split; [reflexivity | exact Hl].
  - rewrite Hrun.
    set (w0 := with_self _ _).
    destruct (wait_set_idle idle (tn :: post) w0 Hidle eq_refl eq_refl)
      as (w' & E & Hw' & Hc' & Hlog & Hclk).
    destruct (wait_set_resumed tn post w' Hcalls Hc') as (w1 & E1 & Hclk1 & Hlog1 & Hs1).
    rewrite E, E1. exists w1. split; [reflexivity|]. split; [|split; [|split]].
    + rewrite Hclk1, Hclk, total_elapsed_app. simpl. lra.
    + rewrite Hlog1, Hlog. reflexivity.
    + exact Hs1.
    + destruct (fresh_anchor_first_tick fuel repeat interval (clock w1) w1 Hi eq_refl)
        as (news & Hnews & Hfirst).
      rewrite Hnews, Hlog1, Hlog. simpl. exact Hfirst.
Qed.

(** C9.  A timer without callback reaches the dispatch of a cycle while its
    weak target no longer resolves (and the host is not exiting): reading
    [target] raises [EventTargetGone], [_tick] lets it through without
    posting, the loop catches it and ends normally, the log holds no more
    posted events than before the cycle, and no later pass of the loop could
    post either. *)
Theorem target_gone_ends_loop (fuel : nat) (repeat : option Z) (interval : Q)
    (count : Z) (start : Q) (w w1 : World) :
  loop_cond repeat count = true ->
  skips interval count start w = false ->
  sleep_then_gate interval count start w = (Ok tt, w1) ->
  _reset (self w1) = false ->
  app_exit w1 = false ->
  _callback (self w1) = None ->
  target_alive w1 = false ->
  let next_timer := fire_time start interval (count + 1) in
  let w2 := observe (ObsTick next_timer (count + 1)) w1 in
  target w1 = (Raise EventTargetGone, w1) /\
  _tick next_timer (count + 1) w1 = (Raise EventTargetGone, w2) /\
  run_loop (S fuel) repeat interval count start w = (Ok tt, w2) /\
  filter is_post (log w2) = filter is_post (log w) /\
  (forall fuel' repeat' count' start',
     filter is_post (log (snd (run_loop fuel' repeat' interval count' start' w2))) =
     filter is_post (log w2)).
Proof.
  intros Hc Hs Hg Hr He Hcb Ht next_timer w2.
  pose proof (tick_target_gone next_timer (count + 1) w1 He Hcb Ht) as Htick.
  split; [unfold target; rewrite Ht; reflexivity|].
  split; [exact Htick|]. split; [|split].
  - rewrite (run_loop_tick fuel repeat interval count start w w1) by assumption.
    fold next_timer. rewrite Htick. reflexivity.
  - pose proof (sleep_then_gate_log interval count start w) as Hlog.
    rewrite Hg in Hlog. cbn [snd] in Hlog.
    unfold w2. cbn [log observe]. rewrite Hlog, !filter_app. simpl. rewrite !app_nil_r.
    reflexivity.
  - intros fuel' repeat' count' start'. apply dead_target_never_posts. exact Ht.
Qed.

(** ** Automatic names *)

Lemma init_leaves_class (cls : TimerClass) (event_target : string) (interval : Q)
    (nm : option string) (callback : option TimerCallback) (repeat : option Z)
    (skip pause : bool) :
  snd (__init__ cls event_target interval nm callback repeat skip pause) = cls.
Proof. reflexivity. Qed.

Lemma construct_all_names (pairs : list (string * Q)) :
  forall cls,
    let args := map (fun p => (fst p, snd p, @None string)) pairs in
    snd (construct_all cls args) = cls /\
    Forall (fun t => name t = ("Timer#" ++ py_str (cls_timer_count cls))%string)
           (fst (construct_all cls args)).
Proof.
  induction pairs as [|[tgt itv] rest IH]; intro cls; simpl; [auto|].
  destruct (IH cls) as [H1 H2].
  destruct (construct_all cls (map _ rest)) as [ts cls2].
  simpl in *. split; [assumption|]. constructor; [reflexivity | assumption].
Qed.

(** C1, as the code has it.  [__init__] reads the counter through the
    instance and stores the incremented value on the instance, so the class
    attribute stays at 1: two timers constructed one after the other without
    a name are both called "Timer#1". *)
Theorem auto_names_collide (tgt1 tgt2 : string) (itv1 itv2 : Q)
    (cb1 cb2 : option TimerCallback) (rp1 rp2 : option Z) (sk1 pa1 sk2 pa2 : bool) :
  let (t1, cls1) := __init__ Timer_class tgt1 itv1 None cb1 rp1 sk1 pa1 in
  let (t2, cls2) := __init__ cls1 tgt2 itv2 None cb2 rp2 sk2 pa2 in
  cls_timer_count cls2 = 1 /\
  name t1 = "Timer#1"%string /\ name t2 = "Timer#1"%string.
Proof. simpl. auto. Qed.

(** ** The scenarios of the specification, run *)

Example py_int_truncates : py_int (- (7 # 2)) = -3 /\ py_int (7 # 2) = 3.
Proof. split; reflexivity. Qed.

Example counts_from_three : counts_from 0 3 = [1; 2; 3].
Proof. reflexivity. Qed.

(** interval 1, repeat 2, no skipping: three ticks, then the loop ends. *)
Example repeat_two_runs :
  let r := _run_timer 3 (start_world (demo_timer (Some (Callback 0)) (Some 2) false false) 0 []) in
  fst r = Ok tt /\ ticks (log (snd r)) = [1; 2; 3].
Proof. vm_compute. split; reflexivity. Qed.

(** The target is released before the first tick: nothing is posted and
    the task ends normally. *)
Example released_target_runs :
  let r := _run_timer 3 released_world in
  fst r = Ok tt /\ filter is_post (log (snd r)) = [].
Proof. vm_compute. split; reflexivity. Qed.

(** A cancellation raised inside the callback ends the task quietly. *)
Example cancelled_callback_runs :
  let r := _run_timer 3 cancelled_world in
  fst r = Ok tt /\ ticks (log (snd r)) = [1] /\ filter is_handled (log (snd r)) = [].
Proof. vm_compute. repeat split; reflexivity. Qed.

(** ** Counterexamples to the claims that the code does not meet *)


(** C3 as stated fails.  Anchor 0, interval 1, tick 1 done, the check made at
    time 7/2: ticks 2 and 3 are overdue and tick 4 is the first that is not,
    yet the next tick dispatched is tick 5. *)
Lemma skip_resumes_one_tick_late :
  Qltb (fire_time 0 1 2) (clock late_world) = true /\
  Qltb (fire_time 0 1 3) (clock late_world) = true /\
  Qltb (fire_time 0 1 4) (clock late_world) = false /\
  ticks (log (snd (run_loop 2 None 1 1 0 late_world))) = [5].
Proof. vm_compute. repeat split; reflexivity. Qed.

(** C8 as stated fails.  The callback raises [SystemExit], which is not an
    [Exception]: it is not handed to the error handler, it leaves the task,
    and no further tick is dispatched. *)
Lemma base_exception_ends_the_timer :
  let r := _run_timer 5 exiting_world in
  fst r = Raise (BaseException_ "SystemExit") /\
  filter is_handled (log (snd r)) = [] /\
  ticks (log (snd r)) = [1].
Proof. vm_compute. repeat split; reflexivity. Qed.

(** ** The theorems at concrete inputs *)



Lemma repeat_bound_dispatches_witness :
  exists w',
    _run_timer 3 (start_world (fst (__init__ Timer_class "widget" 1 None
                                      (Some (Callback 0)) (Some 2) false false)) 0
                              [idle_turn]) = (Ok tt, w') /\
    ticks (log w') = counts_from 0 (Z.to_nat 2 + 1) /\
    List.length (filter is_dispatch (log w')) = (Z.to_nat 2 + 1)%nat.
Proof.
  apply (repeat_bound_dispatches Timer_class "widget" 1 None (Some (Callback 0)) 2 0
           [idle_turn] 3); [lia | reflexivity | simpl; lia].
Defined.


Lemma overdue_ticks_are_skipped_witness :
  exists news,
    log (snd (run_loop 2 None 1 1 0 late_world)) = log late_world ++ news /\
    Forall (fun c => (clock late_world < fire_time 0 1 c)%Q) (ticks news) /\
    (forall k, (fire_time 0 1 k < clock late_world)%Q -> ~ In k (ticks news)).
Proof.
  apply (overdue_ticks_are_skipped 2 None 1 1 0 late_world);
    [reflexivity | reflexivity | reflexivity | split; reflexivity].
Defined.

Lemma reset_restarts_the_count_witness :
  _reset (self (snd (sleep_then_gate 1 0 0 reset_world))) = true /\
  run_loop 3 None 1 0 0 reset_world =
  run_loop 2 None 1 0 (clock (snd (sleep_then_gate 1 0 0 reset_world)))
           (with_self (with_reset false (self (snd (sleep_then_gate 1 0 0 reset_world))))
                      (snd (sleep_then_gate 1 0 0 reset_world))).
Proof.
  split; [reflexivity|].
  apply (reset_restarts_the_count 2 None 1 0 0 reset_world
           (snd (sleep_then_gate 1 0 0 reset_world)));
    [reflexivity | reflexivity | reflexivity | reflexivity | discriminate].
Defined.

Lemma callback_exception_policy_witness :
  let w1 := snd (sleep_then_gate 1 0 0 raising_world) in
  let nx := next_turn (observe (ObsInvoke (Callback 0))
                         (observe (ObsTick (fire_time 0 1 (0 + 1)) (0 + 1)) w1)) in
  run_loop 3 None 1 0 0 raising_world =
  run_loop 2 None 1 (0 + 1) 0
           (observe (ObsHandled (Exception_ "ValueError")) (env_turn 0 (fst nx) (snd nx))).
Proof.
  intros w1 nx.
  apply (callback_exception_policy 2 None 1 0 0 raising_world w1 (snd nx) (Callback 0)
           (fst nx) (Exception_ "ValueError"));
    reflexivity.
Defined.

Lemma target_gone_ends_loop_witness :
  target_alive (snd (sleep_then_gate 1 0 0 released_world)) = false /\
  run_loop 3 None 1 0 0 released_world =
  (Ok tt, observe (ObsTick (fire_time 0 1 (0 + 1)) (0 + 1))
                  (snd (sleep_then_gate 1 0 0 released_world))).
Proof.
  split; [reflexivity|].
  apply (target_gone_ends_loop 2 None 1 0 0 released_world
           (snd (sleep_then_gate 1 0 0 released_world)));
    reflexivity.
Defined.

Lemma paused_timer_anchor_witness :
  exists w1,
    _run 3 (start_world (fst (__init__ Timer_class "widget" 1 None (Some (Callback 0))
                                None true true)) 0
                        ([mkTurn 7 [] Returns] ++ mkTurn 3 [CallResume] Returns :: [])) =
    run_loop 3 None 1 0 (clock w1) w1 /\
    (clock w1 == 0 + total_elapsed ([mkTurn 7 [] Returns] ++ [mkTurn 3 [CallResume] Returns]))%Q /\
    log w1 = [] /\ script w1 = [] /\
    match first_tick
            (log (snd (_run 3 (start_world
                                 (fst (__init__ Timer_class "widget" 1 None
                                         (Some (Callback 0)) None true true)) 0
                                 ([mkTurn 7 [] Returns] ++
                                  mkTurn 3 [CallResume] Returns :: []))))) with
    | None => True
    | Some (_, c) => c = 1
    end.
Proof.
  apply (paused_timer_anchor Timer_class "widget" 1 None (Some (Callback 0)) None true 0
           [mkTurn 7 [] Returns] (mkTurn 3 [CallResume] Returns) [] 3);
    [reflexivity | reflexivity | discriminate].
Defined.

(** * Whole runs, in any environment *)

Lemma tick_pairs_app (l1 l2 : list Obs) :
  tick_pairs (l1 ++ l2) = tick_pairs l1 ++ tick_pairs l2.
Proof.
  induction l1 as [|o l1 IH]; simpl; [reflexivity|].
  destruct o; simpl; rewrite IH; reflexivity.
Qed.

Lemma sleeps_app (l1 l2 : list Obs) : sleeps (l1 ++ l2) = sleeps l1 ++ sleeps l2.
Proof.
  induction l1 as [|o l1 IH]; simpl; [reflexivity|].
  destruct o; simpl; rewrite IH; reflexivity.
Qed.

Lemma ticks_of_pairs (l : list Obs) : ticks l = map snd (tick_pairs l).
Proof.
  induction l as [|o l IH]; simpl; [reflexivity|].
  destruct o; simpl; rewrite IH; reflexivity.
Qed.

Lemma tick_details_silent (l : list Obs) :
  forallb is_tick_detail l = true ->
  tick_pairs l = [] /\ sleeps l = [] /\ ticks l = [].
Proof.
  induction l as [|o l IH]; simpl; [auto|].
  intro H. apply andb_true_iff in H. destruct H as [Ho Hl].
  destruct (IH Hl) as (H1 & H2 & H3).
  destruct o; simpl in *; try discriminate; auto.
Qed.

Lemma tick_adds (next_timer : Q) (count : Z) (w : World) :
  exists l,
    log (snd (_tick next_timer count w)) = log w ++ ObsTick next_timer count :: l /\
    forallb is_tick_detail l = true.
Proof.
  unfold _tick.
  unfold bind at 1. unfold bind at 1. unfold get_app_exit at 1. cbn [app_exit observe].
  destruct (app_exit w); [exists []; simpl; auto|].
  unfold bind at 1. unfold get_self at 1. cbn [self observe].
  destruct (_callback (self w)) as [cb|].
  - unfold try_except.
    pose proof (invoke_log cb (observe (ObsTick next_timer count) w)) as H.
    destruct (invoke cb _) as [[[]|e| |] w1]; cbn [snd log observe] in *;
      try (exists [ObsInvoke cb]; rewrite H, <- app_assoc; simpl; auto; fail).
    destruct e; simpl;
      try (exists [ObsInvoke cb]; rewrite H, <- app_assoc; simpl; auto; fail);
      (eexists [ObsInvoke cb; ObsHandled _]; rewrite H, <- !app_assoc; simpl; auto).
  - unfold bind, target, post_message. cbn [target_alive observe].
    destruct (target_alive w); cbn [snd log observe].
    + eexists [ObsPost _]. rewrite <- app_assoc. simpl. auto.
    + exists []. auto.
Qed.

(** *** The configuration is never written *)

Lemma _active_config (t0 t : Timer) :
  _interval t = _interval t0 /\ name t = name t0 /\
  _callback t = _callback t0 /\ _repeat t = _repeat t0 /\
  _skip t = _skip t0 /\ _original_pause t = _original_pause t0 ->
  let t' := snd (_active t) in
  _interval t' = _interval t0 /\ name t' = name t0 /\
  _callback t' = _callback t0 /\ _repeat t' = _repeat t0 /\
  _skip t' = _skip t0 /\ _original_pause t' = _original_pause t0.
Proof. unfold _active. destruct (_active_cache t); simpl; auto. Qed.

Lemma env_call_config (t : Timer) (w : World) (c : Call) :
  same_config t w -> same_config t (env_call w c).
Proof.
  unfold same_config. intro H.
  destruct c; simpl; auto;
    unfold pause, resume, reset, active_clear, active_set, stop;
    try destruct (_task (self w)); simpl; auto;
    apply (_active_config t (self w) H).
Qed.

Lemma env_calls_config (t : Timer) (cs : list Call) :
  forall w, same_config t w -> same_config t (fold_left env_call cs w).
Proof. induction cs as [|c cs IH]; intros w H; simpl; auto using env_call_config. Qed.

Lemma config_suspend (t : Timer) (w : World) (d : Q) :
  same_config t w -> same_config t (env_turn d (fst (next_turn w)) (snd (next_turn w))).
Proof.
  intro H. unfold env_turn. apply env_calls_config.
  unfold next_turn. destruct (script w); exact H.
Qed.

Lemma config_loop_invariant (t : Timer) :
  (forall interval count start, keeps (same_config t) (sleep_then_gate interval count start)) /\
  (forall next_timer count, keeps (same_config t) (_tick next_timer count)) /\
  (forall interval count start, keeps (same_config t) (iteration interval count start)) /\
  (forall fuel repeat interval count start,
     keeps (same_config t) (run_loop fuel repeat interval count start)).
Proof.
  assert (H1 : forall w d, same_config t w ->
                 same_config t (env_turn d (fst (next_turn w)) (snd (next_turn w))))
    by (intros; apply config_suspend; assumption).
  assert (H2 : forall w b, same_config t w -> same_config t (with_cancelling b w))
    by (intros w b H; exact H).
  assert (H3 : forall w, same_config t w ->
                 same_config t (with_self (snd (_active (self w))) w))
    by (intros w H; apply (_active_config t (self w) H)).
  assert (H4 : forall w o, is_post o = false -> same_config t w -> same_config t (observe o w))
    by (intros w o _ H; exact H).
  assert (H5 : forall w, same_config t w ->
                 same_config t (with_self (with_reset false (self w)) w))
    by (intros w H; exact H).
  assert (H6 : forall event, keeps (same_config t) (target ;; post_message event)).
  { intros event w H. unfold bind, target. destruct (target_alive w); exact H. }
  split; [|split; [|split]]; intros.
  - apply keeps_sleep_then_gate; assumption.
  - apply keeps_tick; assumption.
  - apply keeps_iteration; assumption.
  - apply keeps_run_loop; assumption.
Qed.

Lemma anchored_lower (start interval : Q) (c c' : Z) (l : list (Q * Z)) :
  anchored start interval false c' l -> c <= c' -> anchored start interval false c l.
Proof.
  intros H Hc. inversion H; subst.
  - constructor.
  - constructor; [lia | discriminate | assumption].
Qed.

Lemma same_config_refl (w : World) : same_config (self w) w.
Proof. unfold same_config. auto 10. Qed.

Lemma skip_kept (t : Timer) (w : World) : same_config t w -> _skip (self w) = _skip t.
Proof. intro H. apply H. Qed.

Lemma run_loop_anchored (fuel : nat) :
  forall (repeat : option Z) (interval : Q) (count : Z) (start : Q) (w : World),
    no_reset w ->
    _skip (self w) = false \/ (0 < interval)%Q ->
    exists news,
      log (snd (run_loop fuel repeat interval count start w)) = log w ++ news /\
      anchored start interval (negb (_skip (self w))) count (tick_pairs news).
Proof.
  induction fuel as [|fuel IH]; intros repeat interval count start w Hnr Hmode.
  - exists []. simpl. destruct (loop_cond repeat count); simpl; rewrite app_nil_r;
      split; auto; constructor.
  - destruct (loop_cond repeat count) eqn:Hc.
    2:{ exists []. rewrite run_loop_done by assumption. simpl. rewrite app_nil_r.
        split; auto; constructor. }
    remember (run_loop (S fuel) repeat interval count start w) as res eqn:E.
    destruct (skips interval count start w) eqn:Hs.
    + destruct (skips_overdue _ _ _ _ Hs) as [Hskip Hlate].
      destruct Hmode as [Hoff|Hpos]; [congruence|].
      rewrite run_loop_step, iteration_skips, (interval_nonzero _ Hpos) in E by assumption.
      pose proof (skipped_count_gt _ _ _ _ Hpos Hlate) as Hgt.
      destruct (IH repeat interval (py_int ((clock w - start) / interval + 1)) start w
                  Hnr (or_intror Hpos)) as (news & Hnews & Hanch).
      subst res. exists news. split; [assumption|].
      rewrite Hskip in *. simpl in *. eapply anchored_lower; [exact Hanch | lia].
    + pose proof (sleep_then_gate_log interval count start w) as Hlog.
      pose proof (no_reset_sleep_then_gate interval count start w Hnr) as Hnr1.
      destruct (config_loop_invariant (self w)) as (Kg & Kt & _ & _).
      pose proof (Kg interval count start w (same_config_refl w)) as Hcf1.
      destruct (sleep_then_gate interval count start w) as [r w1] eqn:Eg.
      cbn [snd] in Hlog, Hnr1, Hcf1.
      destruct r as [[]|e| |].
      2,3,4: rewrite run_loop_step, iteration_due in E by assumption;
             unfold bind at 1 in E; rewrite Eg in E; subst res; cbn [snd];
             eexists; split; [exact Hlog | simpl; constructor].
      rewrite (run_loop_tick fuel repeat interval count start w w1) in E
        by (try assumption; apply Hnr1).
      destruct (tick_adds (fire_time start interval (count + 1)) (count + 1) w1)
        as (l & Hl & Hdet).
      destruct (tick_details_silent l Hdet) as (Hp & _ & _).
      destruct no_reset_loop_invariant as (_ & _ & Ht).
      pose proof (Ht (fire_time start interval (count + 1)) (count + 1) w1 Hnr1) as Hnr2.
      pose proof (Kt (fire_time start interval (count + 1)) (count + 1) w1 Hcf1) as Hcf2.
      destruct (_tick _ _ w1) as [r2 w2]. cbn [snd] in Hl, Hnr2, Hcf2.
      assert (Hbase : log w2 =
                      log w ++ ObsSleep (py_max0 (fire_time start interval (count + 1) - clock w))
                            :: ObsTick (fire_time start interval (count + 1)) (count + 1) :: l).
      { rewrite Hl, Hlog, <- app_assoc. reflexivity. }
      assert (Hone : anchored start interval (negb (_skip (self w))) count
                       [(fire_time start interval (count + 1), count + 1)]).
      { constructor; [lia | reflexivity | constructor]. }
      destruct r2 as [[]|e| |].
      * assert (Hmode2 : _skip (self w2) = false \/ (0 < interval)%Q).
        { destruct Hmode as [H|H]; [left|right; exact H].
          rewrite (skip_kept _ _ Hcf2). exact H. }
        destruct (IH repeat interval (count + 1) start w2 Hnr2 Hmode2)
          as (news & Hnews & Hanch).
        rewrite (skip_kept _ _ Hcf2) in Hanch.
        subst res. rewrite Hnews, Hbase, <- app_assoc. eexists. split; [reflexivity|].
        simpl. rewrite tick_pairs_app, Hp. simpl.
        constructor; [lia | reflexivity | exact Hanch].
      * subst res.
        assert (Hsnd : snd (if is_EventTargetGone e then (@Ok unit tt, w2) else (Raise e, w2)) = w2)
          by (destruct (is_EventTargetGone e); reflexivity).
        rewrite Hsnd, Hbase. eexists. split; [reflexivity|].
        simpl. rewrite Hp. exact Hone.
      * subst res. cbn [snd]. rewrite Hbase. eexists. split; [reflexivity|].
        simpl. rewrite Hp. exact Hone.
      * subst res. cbn [snd]. rewrite Hbase. eexists. split; [reflexivity|].
        simpl. rewrite Hp. exact Hone.
Qed.

(** Induction over the passes of the loop: a property of the observations a
    run adds and of how it ends, established pass by pass. *)
Section TraceInduction.
Variables (repeat : option Z) (interval : Q).
Variable P : Z -> Q -> World -> list Obs -> result unit -> Prop.

Hypothesis P_done : forall c s w, loop_cond repeat c = false -> P c s w [] (Ok tt).
Hypothesis P_fuel : forall c s w, loop_cond repeat c = true -> P c s w [] OutOfFuel.
Hypothesis P_zero :
  forall c s w,
    loop_cond repeat c = true -> skips interval c s w = true ->
    Qeq_bool interval 0 = true ->
    P c s w [] (Raise (Exception_ "ZeroDivisionError")).
Hypothesis P_skip :
  forall c s w news r,
    loop_cond repeat c = true -> skips interval c s w = true ->
    Qeq_bool interval 0 = false ->
    P (py_int ((clock w - s) / interval + 1)) s w news r ->
    P c s w news r.
Hypothesis P_gate :
  forall c s w r w1,
    loop_cond repeat c = true -> skips interval c s w = false ->
    sleep_then_gate interval c s w = (r, w1) -> (forall u, r <> Ok u) ->
    P c s w [ObsSleep (py_max0 (fire_time s interval (c + 1) - clock w))] r.
Hypothesis P_reset :
  forall c s w w1 news r,
    loop_cond repeat c = true -> skips interval c s w = false ->
    sleep_then_gate interval c s w = (Ok tt, w1) -> _reset (self w1) = true ->
    P 0 (clock w1) (with_self (with_reset false (self w1)) w1) news r ->
    P c s w (ObsSleep (py_max0 (fire_time s interval (c + 1) - clock w)) :: news) r.
Hypothesis P_tick_end :
  forall c s w w1 r2 w2 l,
    loop_cond repeat c = true -> skips interval c s w = false ->
    sleep_then_gate interval c s w = (Ok tt, w1) -> _reset (self w1) = false ->
    _tick (fire_time s interval (c + 1)) (c + 1) w1 = (r2, w2) ->
    log w2 = log w1 ++ ObsTick (fire_time s interval (c + 1)) (c + 1) :: l ->
    forallb is_tick_detail l = true ->
    (forall u, r2 <> Ok u) ->
    P c s w (ObsSleep (py_max0 (fire_time s interval (c + 1) - clock w))
               :: ObsTick (fire_time s interval (c + 1)) (c + 1) :: l)
      (after_tick r2).
Hypothesis P_tick :
  forall c s w w1 w2 l news r,
    loop_cond repeat c = true -> skips interval c s w = false ->
    sleep_then_gate interval c s w = (Ok tt, w1) -> _reset (self w1) = false ->
    _tick (fire_time s interval (c + 1)) (c + 1) w1 = (Ok tt, w2) ->
    log w2 = log w1 ++ ObsTick (fire_time s interval (c + 1)) (c + 1) :: l ->
    forallb is_tick_detail l = true ->
    P (c + 1) s w2 news r ->
    P c s w (ObsSleep (py_max0 (fire_time s interval (c + 1) - clock w))
               :: ObsTick (fire_time s interval (c + 1)) (c + 1) :: l ++ news)
      r.

Lemma run_loop_trace (fuel : nat) :
  forall (c : Z) (s : Q) (w : World),
    exists news,
      log (snd (run_loop fuel repeat interval c s w)) = log w ++ news /\
      P c s w news (fst (run_loop fuel repeat interval c s w)).
Proof.
  induction fuel as [|fuel IH]; intros c s w.
  - exists []. simpl. destruct (loop_cond repeat c) eqn:Hc; simpl; rewrite app_nil_r; auto.
  - destruct (loop_cond repeat c) eqn:Hc.
    2:{ exists []. rewrite run_loop_done by assumption. simpl. rewrite app_nil_r. auto. }
    remember (run_loop (S fuel) repeat interval c s w) as res eqn:E.
    destruct (skips interval c s w) eqn:Hs.
    + rewrite run_loop_step, iteration_skips in E by assumption.
      destruct (Bool.bool_dec (Qeq_bool interval 0) true) as [Hz|Hz];
        [|apply not_true_is_false in Hz]; rewrite Hz in E.
      * subst res. exists []. simpl. rewrite app_nil_r. auto.
      * destruct (IH (py_int ((clock w - s) / interval + 1)) s w) as (news & Hn & Hp).
        subst res. exists news. split; [assumption|]. apply P_skip; assumption.
    + pose proof (sleep_then_gate_log interval c s w) as Hlog.
      destruct (sleep_then_gate interval c s w) as [r w1] eqn:Eg. cbn [snd] in Hlog.
      destruct r as [[]|e| |].
      2,3,4: rewrite run_loop_step, iteration_due in E by assumption;
             unfold bind at 1 in E; rewrite Eg in E; subst res; cbn [fst snd];
             eexists; split; [exact Hlog|];
             eapply P_gate; [assumption | assumption | exact Eg | discriminate].
      destruct (_reset (self w1)) eqn:Hr.
      * rewrite run_loop_step, (run_loop_reset fuel repeat interval c s w w1) in E
          by assumption.
        destruct (IH 0 (clock w1) (with_self (with_reset false (self w1)) w1))
          as (news & Hn & Hp).
        subst res. rewrite Hn. cbn [log with_self]. rewrite Hlog, <- app_assoc.
        eexists. split; [reflexivity|]. simpl. eapply P_reset; eassumption.
      * rewrite (run_loop_tick fuel repeat interval c s w w1) in E by assumption.
        destruct (tick_adds (fire_time s interval (c + 1)) (c + 1) w1) as (l & Hl & Hdet).
        destruct (_tick _ _ w1) as [r2 w2] eqn:Et. cbn [snd] in Hl.
        assert (Hbase : log w2 =
                        log w ++ ObsSleep (py_max0 (fire_time s interval (c + 1) - clock w))
                              :: ObsTick (fire_time s interval (c + 1)) (c + 1) :: l).
        { rewrite Hl, Hlog, <- app_assoc. reflexivity. }
        destruct r2 as [[]|e| |].
        -- destruct (IH (c + 1) s w2) as (news & Hn & Hp).
           subst res. rewrite Hn, Hbase, <- app_assoc. eexists. split; [reflexivity|].
           simpl. eapply P_tick; eassumption.
        -- assert (Hres : res = (after_tick (Raise e), w2))
             by (subst res; simpl; destruct (is_EventTargetGone e); reflexivity).
           rewrite Hres. cbn [fst snd]. rewrite Hbase. eexists. split; [reflexivity|].
           eapply P_tick_end; try eassumption. discriminate.
        -- subst res. cbn [fst snd]. rewrite Hbase. eexists. split; [reflexivity|].
           change (@Blocked unit) with (after_tick Blocked).
           eapply P_tick_end; try eassumption. discriminate.
        -- subst res. cbn [fst snd]. rewrite Hbase. eexists. split; [reflexivity|].
           change (@OutOfFuel unit) with (after_tick OutOfFuel).
           eapply P_tick_end; try eassumption. discriminate.
Qed.
End TraceInduction.

Lemma py_max0_nonneg (x : Q) : (0 <= py_max0 x)%Q.
Proof.
  unfold py_max0. destruct (Qltb 0 x) eqn:E; [|lra].
  apply Qltb_lt in E. lra.
Qed.

(** X1.  With [repeat = r] the loop never dispatches a tick whose count
    exceeds [r + 1], whatever the environment does (pauses, resets, late
    wake-ups, skipped ticks) and wherever the count starts. *)
Theorem repeat_bound_never_exceeded (fuel : nat) (r : Z) (interval : Q)
    (count : Z) (start : Q) (w : World) :
  exists news,
    log (snd (run_loop fuel (Some r) interval count start w)) = log w ++ news /\
    Forall (fun c => c <= r + 1) (ticks news).
Proof.
  apply (run_loop_trace (Some r) interval
           (fun _ _ _ news _ => Forall (fun c => c <= r + 1) (ticks news))).
  - intros. constructor.
  - intros. constructor.
  - intros. constructor.
  - intros c s w0 news r0 _ _ _ H. exact H.
  - intros. simpl. constructor.
  - intros c s w0 w1 news r0 _ _ _ _ H. exact H.
  - intros c s w0 w1 r2 w2 l Hc _ _ _ _ _ Hdet _.
    destruct (tick_details_silent l Hdet) as (_ & _ & Ht).
    simpl. rewrite Ht. simpl in Hc. apply Z.leb_le in Hc. constructor; [lia | constructor].
  - intros c s w0 w1 w2 l news r0 Hc _ _ _ _ _ Hdet H.
    destruct (tick_details_silent l Hdet) as (_ & _ & Ht).
    simpl. rewrite ticks_app, Ht. simpl. simpl in Hc. apply Z.leb_le in Hc.
    constructor; [lia | exact H].
Qed.

(** X6.  Every duration the loop passes to [sleep] is non-negative
    (the [max(0, ...)] of the sleep call), in every environment. *)
Theorem sleep_is_never_negative (fuel : nat) (repeat : option Z) (interval : Q)
    (count : Z) (start : Q) (w : World) :
  exists news,
    log (snd (run_loop fuel repeat interval count start w)) = log w ++ news /\
    Forall (fun d => (0 <= d)%Q) (sleeps news).
Proof.
  apply (run_loop_trace repeat interval
           (fun _ _ _ news _ => Forall (fun d => (0 <= d)%Q) (sleeps news))).
  - intros. constructor.
  - intros. constructor.
  - intros. constructor.
  - intros c s w0 news r0 _ _ _ H. exact H.
  - intros. simpl. constructor; [apply py_max0_nonneg | constructor].
  - intros c s w0 w1 news r0 _ _ _ _ H. simpl. constructor; [apply py_max0_nonneg | exact H].
  - intros c s w0 w1 r2 w2 l _ _ _ _ _ _ Hdet _.
    destruct (tick_details_silent l Hdet) as (_ & Hs & _).
    simpl. rewrite Hs. constructor; [apply py_max0_nonneg | constructor].
  - intros c s w0 w1 w2 l news r0 _ _ _ _ _ _ Hdet H.
    destruct (tick_details_silent l Hdet) as (_ & Hs & _).
    simpl. rewrite sleeps_app, Hs. simpl. constructor; [apply py_max0_nonneg | exact H].
Qed.

Lemma anchored_fire_times (start interval : Q) (b : bool) (c0 : Z) (l : list (Q * Z)) :
  anchored start interval b c0 l ->
  Forall (fun p => fst p = fire_time start interval (snd p)) l.
Proof. induction 1; constructor; auto. Qed.

Lemma anchored_consecutive (start interval : Q) (c0 : Z) (l : list (Q * Z)) :
  anchored start interval true c0 l ->
  map snd l = counts_from c0 (List.length l).
Proof.
  induction 1 as [|c0 c l Hlt Hc Ha IH]; simpl; [reflexivity|].
  rewrite (Hc eq_refl) in *. rewrite IH. reflexivity.
Qed.

Lemma anchored_increasing (start interval : Q) (b : bool) (c0 : Z) (l : list (Q * Z)) :
  anchored start interval b c0 l ->
  StronglySorted Z.lt (c0 :: map snd l).
Proof.
  induction 1 as [|c0 c l Hlt Hc Ha IH]; simpl.
  - constructor; constructor.
  - constructor; [exact IH|].
    constructor; [exact Hlt|].
    inversion IH as [|? ? _ Hall]; subst.
    eapply Forall_impl; [|exact Hall]. intros a Ha'. cbv beta in Ha'. lia.
Qed.

(** X4.  While no [reset()] is requested, the [next_timer] passed to
    [_tick] for the count [c] is exactly [start + c * interval]: pauses, late
    wake-ups and skipped ticks never shift the schedule.  (For a timer that
    skips, the interval must be positive.) *)
Theorem fire_times_are_anchored (fuel : nat) (repeat : option Z) (interval : Q)
    (count : Z) (start : Q) (w : World) :
  no_reset w ->
  _skip (self w) = false \/ (0 < interval)%Q ->
  exists news,
    log (snd (run_loop fuel repeat interval count start w)) = log w ++ news /\
    Forall (fun p => fst p = fire_time start interval (snd p)) (tick_pairs news).
Proof.
  intros Hnr Hmode.
  destruct (run_loop_anchored fuel repeat interval count start w Hnr Hmode)
    as (news & Hn & Ha).
  exists news. split; [exact Hn|]. eapply anchored_fire_times. exact Ha.
Qed.

(** X2.  With [skip=False] and no [reset()] requested, no tick is left
    out: the counts dispatched from [count] on are [count + 1], [count + 2],
    ... in order, however late the loop runs. *)
Theorem counts_are_consecutive_without_skip (fuel : nat) (repeat : option Z)
    (interval : Q) (count : Z) (start : Q) (w : World) :
  no_reset w ->
  _skip (self w) = false ->
  exists news,
    log (snd (run_loop fuel repeat interval count start w)) = log w ++ news /\
    ticks news = counts_from count (List.length (ticks news)).
Proof.
  intros Hnr Hoff.
  destruct (run_loop_anchored fuel repeat interval count start w Hnr (or_introl Hoff))
    as (news & Hn & Ha).
  exists news. split; [exact Hn|].
  rewrite Hoff in Ha. simpl in Ha.
  rewrite ticks_of_pairs, length_map. apply (anchored_consecutive _ _ _ _ Ha).
Qed.

(** X3.  With a positive interval and no [reset()] requested, the
    dispatched counts are strictly increasing and all above the count the
    loop starts from: no tick is dispatched twice, with or without
    skipping. *)
Theorem counts_are_strictly_increasing (fuel : nat) (repeat : option Z)
    (interval : Q) (count : Z) (start : Q) (w : World) :
  no_reset w ->
  (0 < interval)%Q ->
  exists news,
    log (snd (run_loop fuel repeat interval count start w)) = log w ++ news /\
    StronglySorted Z.lt (count :: ticks news).
Proof.
  intros Hnr Hpos.
  destruct (run_loop_anchored fuel repeat interval count start w Hnr (or_intror Hpos))
    as (news & Hn & Ha).
  exists news. split; [exact Hn|].
  rewrite ticks_of_pairs. apply (anchored_increasing _ _ _ _ _ Ha).
Qed.

(** *** How the suspensions end *)

Lemma only_cancels_bind {A B} (c : M A) (k : A -> M B) :
  only_cancels c -> (forall a, only_cancels (k a)) -> only_cancels (bind c k).
Proof.
  intros Hc Hk w. unfold bind. specialize (Hc w).
  destruct (c w) as [[a|e| |] w1]; simpl in *; auto. apply Hk.
Qed.

Lemma only_cancels_suspend (d : Q) : only_cancels (suspend d).
Proof.
  intro w. unfold suspend. destruct (next_turn w) as [tn w1].
  destruct (cancelling _); simpl; auto.
Qed.

Lemma only_cancels_sleep (d : Q) : only_cancels (sleep d).
Proof.
  intro w. unfold sleep.
  apply (only_cancels_bind (suspend d) (fun _ => ret tt)).
  - apply only_cancels_suspend.
  - intros a w0. exact Logic.I.
Qed.

Lemma only_cancels_wait_set (turns : list Turn) :
  forall w,
    match fst (wait_set turns w) with
    | Raise e => e = CancelledError
    | OutOfFuel => False
    | _ => True
    end.
Proof.
  induction turns as [|tn rest IH]; intro w; simpl; [exact Logic.I|].
  destruct (cancelling _); [reflexivity|].
  destruct (fst (_active _)); [exact Logic.I|]. apply IH.
Qed.

Lemma only_cancels_active_wait : only_cancels active_wait.
Proof.
  intro w. unfold active_wait. destruct (_active (self w)) as [[|] t]; [exact Logic.I|].
  apply only_cancels_wait_set.
Qed.

Lemma only_cancels_sleep_then_gate (interval : Q) (count : Z) (start : Q) :
  only_cancels (sleep_then_gate interval count start).
Proof.
  intro w. unfold sleep_then_gate.
  apply (only_cancels_bind (sleep _) (fun _ => active_wait)).
  - apply only_cancels_sleep.
  - intro. apply only_cancels_active_wait.
Qed.

(** *** The host is exiting *)





(** *** What can leave the task *)

Lemma tick_raises (next_timer : Q) (count : Z) (w : World) :
  match fst (_tick next_timer count w) with
  | Raise e =>
      (is_Exception e = false /\ _callback (self w) <> None) \/
      (e = EventTargetGone /\ _callback (self w) = None)
  | Blocked | OutOfFuel => False
  | Ok _ => True
  end.
Proof.
  unfold _tick. unfold bind at 1. unfold bind at 1. unfold get_app_exit at 1.
  cbn [app_exit observe]. destruct (app_exit w); [exact Logic.I|].
  unfold bind at 1. unfold get_self at 1. cbn [self observe].
  destruct (_callback (self w)) as [cb|] eqn:Hcb.
  - unfold try_except, invoke. destruct (next_turn _) as [tn w1].
    destruct (outcome tn) as [|e]; [exact Logic.I|].
    destruct e; simpl; auto; left; split; auto; discriminate.
  - unfold bind, target. cbn [target_alive observe].
    destruct (target_alive w); simpl; auto.
Qed.




(** *** After [stop()] *)









(** X14.  With interval 0 and [skip=True], once the clock has passed
    the start anchor the skip computation divides by zero: the pass raises
    [ZeroDivisionError] and leaves the world as it was, and an
    [except CancelledError] around the loop does not catch it. *)
Theorem zero_interval_divides_by_zero (fuel : nat) (repeat : option Z) (interval : Q)
    (count : Z) (start : Q) (w : World) :
  (interval == 0)%Q ->
  _skip (self w) = true ->
  (start < clock w)%Q ->
  loop_cond repeat count = true ->
  run_loop (S fuel) repeat interval count start w =
  (Raise (Exception_ "ZeroDivisionError"), w) /\
  try_except (run_loop (S fuel) repeat interval count start)
             [(is_CancelledError, fun _ => ret tt)] w =
  (Raise (Exception_ "ZeroDivisionError"), w).
Proof.
  intros Hz Hskip Hlate Hc.
  assert (Hs : skips interval count start w = true).
  { unfold skips. rewrite Hskip. simpl. apply Qltb_lt. unfold fire_time.
    rewrite Hz. lra. }
  assert (E : run_loop (S fuel) repeat interval count start w =
              (Raise (Exception_ "ZeroDivisionError"), w)).
  { rewrite run_loop_step, iteration_skips by assumption.
    rewrite (Qeq_eq_bool _ _ Hz). reflexivity. }
  split; [exact E|]. unfold try_except. rewrite E. reflexivity.
Qed.

(** *** Bounded timers end *)

(** X8.  A timer with [repeat = r] on which no [reset()] is requested
    makes at most [r + 1 - count] passes through the loop: with that much
    fuel the run never stops for lack of fuel.  (For a timer that skips, the
    interval must be positive.) *)
Theorem bounded_timer_terminates (fuel : nat) :
  forall (r : Z) (interval : Q) (count : Z) (start : Q) (w : World),
    no_reset w ->
    _skip (self w) = false \/ (0 < interval)%Q ->
    r + 1 - count <= Z.of_nat fuel ->
    fst (run_loop fuel (Some r) interval count start w) <> OutOfFuel.
Proof.
  induction fuel as [|fuel IH]; intros r interval count start w Hnr Hmode Hm.
  - rewrite run_loop_done; [discriminate|]. simpl. apply Z.leb_gt. lia.
  - destruct (loop_cond (Some r) count) eqn:Hc.
    2:{ rewrite run_loop_done by assumption. discriminate. }
    destruct (skips interval count start w) eqn:Hs.
    + destruct (skips_overdue _ _ _ _ Hs) as [Hskip Hlate].
      destruct Hmode as [Hoff|Hpos]; [congruence|].
      rewrite run_loop_step, iteration_skips, (interval_nonzero _ Hpos) by assumption.
      pose proof (skipped_count_gt _ _ _ _ Hpos Hlate) as Hgt.
      apply IH; [assumption | right; assumption | lia].
    + pose proof (no_reset_sleep_then_gate interval count start w Hnr) as Hnr1.
      pose proof (only_cancels_sleep_then_gate interval count start w) as Kg.
      destruct (config_loop_invariant (self w)) as (Cg & Ct & _ & _).
      pose proof (Cg interval count start w (same_config_refl w)) as Hcf1.
      destruct (sleep_then_gate interval count start w) as [r1 w1] eqn:Eg.
      cbn [fst snd] in *.
      destruct r1 as [[]|e| |].
      2,3,4: rewrite run_loop_step, iteration_due by assumption;
             unfold bind at 1; rewrite Eg; try discriminate; destruct Kg.
      rewrite (run_loop_tick fuel (Some r) interval count start w w1)
        by (try assumption; apply Hnr1).
      destruct no_reset_loop_invariant as (_ & _ & Ht).
      pose proof (Ht (fire_time start interval (count + 1)) (count + 1) w1 Hnr1) as Hnr2.
      pose proof (Ct (fire_time start interval (count + 1)) (count + 1) w1 Hcf1) as Hcf2.
      pose proof (tick_raises (fire_time start interval (count + 1)) (count + 1) w1) as Kt.
      destruct (_tick _ _ w1) as [r2 w2]. cbn [fst snd] in *.
      destruct r2 as [[]|e| |]; try (destruct Kt; fail).
      * apply IH; [assumption | | lia].
        destruct Hmode as [H|H]; [left|right; exact H].
        rewrite (skip_kept _ _ Hcf2). exact H.
      * destruct (is_EventTargetGone e); discriminate.
Qed.

(** *** The controller calls on the object *)

(** X18.  The gate [_active] is decided by the last of [pause()],
    [resume()] and [reset()]: closed after [pause()], open after [resume()]
    or [reset()]; each call is idempotent and overrides the one before, and
    [resume()] after [reset()] keeps the pending reset. *)
Theorem gate_follows_the_last_call (t : Timer) :
  fst (_active (pause t)) = false /\
  fst (_active (resume t)) = true /\
  fst (_active (reset t)) = true /\
  resume (pause t) = resume t /\
  pause (resume t) = pause t /\
  pause (pause t) = pause t /\
  resume (resume t) = resume t /\
  reset (reset t) = reset t /\
  resume (reset t) = reset t.
Proof.
  destruct t as [tr itv nm own cb rp sk tk rs op [e|]];
    unfold pause, resume, reset, active_clear, active_set, _active; simpl;
    repeat split; reflexivity.
Qed.

(** X19.  On a timer whose gate is open, [pause()] followed by
    [resume()] gives back the same timer: no other field is touched. *)
Theorem pause_resume_round_trip (t : Timer) :
  _active_cache t = Some true ->
  resume (pause t) = t.
Proof.
  destruct t as [tr itv nm own cb rp sk tk rs op e].
  unfold pause, resume, active_clear, active_set, _active; simpl.
  intros ->. reflexivity.
Qed.

(** X17.  [stop()] on a timer that was never started does nothing; on a
    started timer it requests the cancellation, opens the gate and forgets
    the task, so that a second [stop()] does nothing. *)
Theorem stop_is_final (t : Timer) (cls : TimerClass) (event_target : string)
    (interval : Q) (nm : option string) (callback : option TimerCallback)
    (repeat : option Z) (skip pause : bool) :
  let fresh := fst (__init__ cls event_target interval nm callback repeat skip pause) in
  stop fresh = (fresh, false) /\
  snd (stop (_start t)) = true /\
  fst (_active (fst (stop (_start t)))) = true /\
  _task (fst (stop t)) = None /\
  stop (fst (stop t)) = (fst (stop t), false).
Proof.
  unfold stop, _start.
  destruct t as [tr itv nm' own cb rp sk [k|] rs op [e|]]; simpl;
    repeat split; reflexivity.
Qed.

(** *** Waiting at the gate *)

Lemma env_call_idle_fields (w : World) (c : Call) :
  opens c = false ->
  _task (self (env_call w c)) = _task (self w) /\
  _reset (self (env_call w c)) = _reset (self w).
Proof.
  destruct c; simpl; try discriminate; intros _; auto.
  unfold pause, active_clear, _active. destruct (_active_cache (self w)); simpl; auto.
Qed.

Lemma env_turn_idle_fields (d : Q) (tn : Turn) (w : World) :
  forallb (fun c => negb (opens c)) (calls tn) = true ->
  _task (self (env_turn d tn w)) = _task (self w) /\
  _reset (self (env_turn d tn w)) = _reset (self w).
Proof.
  intro H. unfold env_turn.
  assert (K : forall cs w0,
             forallb (fun c => negb (opens c)) cs = true ->
             _task (self (fold_left env_call cs w0)) = _task (self w0) /\
             _reset (self (fold_left env_call cs w0)) = _reset (self w0)).
  { induction cs as [|c cs IH]; intros w0 Hcs; simpl in *; [auto|].
    apply andb_true_iff in Hcs. destruct Hcs as [Hc Hcs]. apply negb_true_iff in Hc.
    destruct (env_call_idle_fields w0 c Hc) as [H1 H2].
    destruct (IH (env_call w0 c) Hcs) as [H3 H4]. split; congruence. }
  apply (K (calls tn) (with_clock (clock w + d + elapsed tn) w) H).
Qed.

Lemma wait_set_idle_fields (idle : list Turn) :
  forall (rest : list Turn) (w : World),
    never_opened idle = true ->
    fst (_active (self w)) = false ->
    cancelling w = false ->
    exists w',
      wait_set (idle ++ rest) w = wait_set rest w' /\
      fst (_active (self w')) = false /\ cancelling w' = false /\
      log w' = log w /\ _task (self w') = _task (self w) /\
      _reset (self w') = _reset (self w).
Proof.
  induction idle as [|tn idle IH]; intros rest w Hn Hw Hc.
  - exists w. simpl. auto 10.
  - simpl in Hn. apply andb_true_iff in Hn. destruct Hn as [Htn Hidle].
    destruct (env_turn_paused 0 tn (with_script (idle ++ rest) w) Htn Hw) as [H1 H2].
    destruct (env_turn_idle_fields 0 tn (with_script (idle ++ rest) w) Htn) as [H3 H4].
    destruct (env_turn_log 0 tn (with_script (idle ++ rest) w)) as [H5 _].
    destruct (IH rest (env_turn 0 tn (with_script (idle ++ rest) w)) Hidle H1
                ltac:(rewrite H2; exact Hc))
      as (w' & E & Hw' & Hc' & Hlog & Htask & Hreset).
    cbn [log self with_script] in H3, H4, H5.
    exists w'. split.
    + simpl. rewrite H2. simpl. rewrite Hc, H1. exact E.
    + repeat split; auto; congruence.
Qed.

Lemma run_from_pause (cls : TimerClass) (event_target : string) (interval : Q)
    (nm : option string) (callback : option TimerCallback) (repeat : option Z)
    (skip : bool) (now : Q) (turns : list Turn) (fuel : nat) :
  let t := fst (__init__ cls event_target interval nm callback repeat skip true) in
  _run fuel (start_world t now turns) =
  match wait_set turns
          (with_self (snd (_active (self (start_world t now turns))))
                     (start_world t now turns)) with
  | (Ok _, w1) => run_loop fuel repeat interval 0 (clock w1) w1
  | (Raise e, w1) => (Raise e, w1)
  | (Blocked, w1) => (Blocked, w1)
  | (OutOfFuel, w1) => (OutOfFuel, w1)
  end.
Proof.
  intro t. unfold _run, force_active, bind, get_self, get_time, active_wait. simpl.
  destruct (wait_set turns _) as [[[]|e| |] w1]; reflexivity.
Qed.

(** X16.  A timer created with [pause=True] and stopped before anyone
    resumes it ends its task normally and has never dispatched: [stop()]
    opens the gate and forgets the task, the cancellation is swallowed by
    [_run_timer]. *)
Theorem paused_timer_stopped (cls : TimerClass) (event_target : string) (interval : Q)
    (nm : option string) (callback : option TimerCallback) (repeat : option Z)
    (skip : bool) (now : Q) (idle : list Turn) (tn : Turn) (post : list Turn)
    (fuel : nat) :
  never_opened idle = true ->
  calls tn = [CallStop] ->
  let t := fst (__init__ cls event_target interval nm callback repeat skip true) in
  exists w',
    _run_timer fuel (start_world t now (idle ++ tn :: post)) = (Ok tt, w') /\
    log w' = [] /\ _task (self w') = None /\ fst (_active (self w')) = true.
Proof.
  intros Hidle Hcalls t.
  unfold _run_timer, try_except. subst t.
  rewrite (run_from_pause cls event_target interval nm callback repeat skip now
             (idle ++ tn :: post) fuel).
  set (t := fst (__init__ cls event_target interval nm callback repeat skip true)).
  set (w0 := with_self _ _).
  destruct (wait_set_idle_fields idle (tn :: post) w0 Hidle eq_refl eq_refl)
    as (w' & E & Hw' & Hc' & Hlog & Htask & _).
  rewrite E. simpl. unfold env_turn. rewrite Hcalls. simpl.
  unfold stop. cbn [self with_clock with_script].
  change (_task (self w0)) with (Some (TaskHandle (name t))) in Htask.
  rewrite Htask. simpl. rewrite orb_true_r. simpl.
  eexists. split; [reflexivity|]. simpl. rewrite Hlog. auto.
Qed.

Lemma wait_set_idle_clock (idle : list Turn) :
  forall (rest : list Turn) (w : World),
    never_opened idle = true ->
    fst (_active (self w)) = false ->
    cancelling w = false ->
    exists w',
      wait_set (idle ++ rest) w = wait_set rest w' /\
      fst (_active (self w')) = false /\ cancelling w' = false /\
      log w' = log w /\ _reset (self w') = _reset (self w) /\
      (clock w' == clock w + total_elapsed idle)%Q.
Proof.
  induction idle as [|tn idle IH]; intros rest w Hn Hw Hc.
  - exists w. simpl. repeat split; auto. lra.
  - simpl in Hn. apply andb_true_iff in Hn. destruct Hn as [Htn Hidle].
    destruct (env_turn_paused 0 tn (with_script (idle ++ rest) w) Htn Hw) as [H1 H2].
    destruct (env_turn_idle_fields 0 tn (with_script (idle ++ rest) w) Htn) as [_ H4].
    destruct (env_turn_log 0 tn (with_script (idle ++ rest) w)) as [H5 _].
    pose proof (env_turn_clock 0 tn (with_script (idle ++ rest) w)) as H6.
    destruct (IH rest (env_turn 0 tn (with_script (idle ++ rest) w)) Hidle H1
                ltac:(rewrite H2; exact Hc))
      as (w' & E & Hw' & Hc' & Hlog & Hreset & Hclk).
    cbn [log self clock with_script] in H4, H5, H6.
    exists w'. split.
    + simpl. rewrite H2. simpl. rewrite Hc, H1. exact E.
    + repeat split; auto; try congruence.
      rewrite Hclk, H6. simpl. lra.
Qed.

Lemma wait_set_resumed_reset (tn : Turn) (post : list Turn) (w : World) :
  calls tn = [CallResume] ->
  cancelling w = false ->
  exists w1,
    wait_set (tn :: post) w = (Ok tt, w1) /\
    clock w1 = (clock w + 0 + elapsed tn)%Q /\ log w1 = log w /\
    _reset (self w1) = _reset (self w).
Proof.
  intros Hcalls Hc. simpl. unfold env_turn. rewrite Hcalls. simpl.
  rewrite Hc. unfold resume, active_set. simpl.
  eexists. split; [reflexivity|]. simpl. rewrite _active_keeps_reset. auto.
Qed.

Lemma sleep_returns_uncancelled (d : Q) (w w1 : World) :
  sleep d w = (Ok tt, w1) -> cancelling w1 = false.
Proof.
  unfold sleep, bind, suspend. destruct (next_turn _) as [tn w0].
  destruct (cancelling (env_turn d tn w0)) eqn:E; [discriminate|].
  intro H. inversion H. subst. exact E.
Qed.

(** X7.  A timer paused during the sleep for a tick and resumed later,
    without a reset, dispatches that very tick on resumption, with its count
    and its original fire time, after exactly the time the turns of the
    pause took: the pause neither drops the tick nor moves its fire time. *)
Theorem pause_keeps_the_pending_tick (interval : Q) (count : Z) (start : Q)
    (w w1 : World) (idle : list Turn) (tn : Turn) (post : list Turn) :
  skips interval count start w = false ->
  sleep (py_max0 (fire_time start interval (count + 1) - clock w)) w = (Ok tt, w1) ->
  fst (_active (self w1)) = false ->
  _reset (self w1) = false ->
  script w1 = idle ++ tn :: post ->
  never_opened idle = true ->
  calls tn = [CallResume] ->
  exists w2 l,
    sleep_then_gate interval count start w = (Ok tt, w2) /\
    (clock w2 == clock w1 + total_elapsed (idle ++ [tn]))%Q /\
    log (snd (iteration interval count start w)) =
    log w ++ ObsSleep (py_max0 (fire_time start interval (count + 1) - clock w))
          :: ObsTick (fire_time start interval (count + 1)) (count + 1) :: l.
Proof.
  intros Hs Hsleep Hclosed Hreset Hscript Hidle Hcalls.
  pose proof (sleep_returns_uncancelled _ _ _ Hsleep) as Hcan.
  pose proof (sleep_log (py_max0 (fire_time start interval (count + 1) - clock w)) w) as Hl1.
  rewrite Hsleep in Hl1. cbn [snd] in Hl1.
  set (w1' := with_self (snd (_active (self w1))) w1).
  assert (Hclosed' : fst (_active (self w1')) = false)
    by (unfold w1'; simpl; rewrite _active_cached; exact Hclosed).
  destruct (wait_set_idle_clock idle (tn :: post) w1' Hidle Hclosed' Hcan)
    as (wa & E & _ & Hca & Hloga & Hreseta & Hclka).
  destruct (wait_set_resumed_reset tn post wa Hcalls Hca)
    as (w2 & E2 & Hclk2 & Hlog2 & Hreset2).
  assert (Hgate : sleep_then_gate interval count start w = (Ok tt, w2)).
  { unfold sleep_then_gate. unfold bind. rewrite Hsleep. unfold active_wait.
    destruct (_active (self w1)) as [ev t'] eqn:Ea. simpl in Hclosed. subst ev.
    assert (Hw : with_self t' w1 = w1') by (unfold w1'; try rewrite Ea; reflexivity).
    rewrite Hw. change (script w1') with (script w1). rewrite Hscript, E. exact E2. }
  assert (Hr2 : _reset (self w2) = false).
  { rewrite Hreset2, Hreseta. unfold w1'. simpl. rewrite _active_keeps_reset. exact Hreset. }
  destruct (reset_or_tick_log (fire_time start interval (count + 1)) (count + 1) start w2 Hr2)
    as (l & Hl).
  exists w2, l. split; [exact Hgate|]. split.
  - rewrite Hclk2, Hclka, total_elapsed_app. simpl. lra.
  - rewrite iteration_due by assumption. unfold bind at 1. rewrite Hgate.
    rewrite Hl, Hlog2, Hloga. unfold w1'. cbn [log with_self]. rewrite Hl1, <- app_assoc.
    reflexivity.
Qed.

(** *** Ticks are never early *)

Lemma next_turn_forward (w : World) :
  time_moves_forward (script w) = true ->
  (0 <= elapsed (fst (next_turn w)))%Q /\
  time_moves_forward (script (snd (next_turn w))) = true /\
  clock (snd (next_turn w)) = clock w.
Proof.
  intro H. unfold next_turn. destruct (script w) as [|tn rest] eqn:E; simpl.
  - rewrite E. repeat split; auto. lra.
  - simpl in H. apply andb_true_iff in H. destruct H as [H1 H2].
    apply Qle_bool_iff in H1. auto.
Qed.

Lemma wait_set_forward (turns : list Turn) :
  forall w w1,
    time_moves_forward turns = true ->
    wait_set turns w = (Ok tt, w1) ->
    (clock w <= clock w1)%Q.
Proof.
  induction turns as [|tn rest IH]; intros w w1 Hf E; simpl in E; [discriminate|].
  simpl in Hf. apply andb_true_iff in Hf. destruct Hf as [H1 H2].
  apply Qle_bool_iff in H1.
  pose proof (env_turn_clock 0 tn (with_script rest w)) as Hc. cbn [clock with_script] in Hc.
  destruct (cancelling _); [discriminate|].
  destruct (fst (_active _)).
  - inversion E; subst. rewrite Hc. lra.
  - specialize (IH _ _ H2 E). rewrite Hc in IH. lra.
Qed.

Lemma sleep_then_gate_ok (interval : Q) (count : Z) (start : Q) (w w1 : World) :
  sleep_then_gate interval count start w = (Ok tt, w1) ->
  exists w',
    sleep (py_max0 (fire_time start interval (count + 1) - clock w)) w = (Ok tt, w') /\
    active_wait w' = (Ok tt, w1).
Proof.
  unfold sleep_then_gate, bind. intro E.
  destruct (sleep _ w) as [[[]|e| |] w']; try discriminate.
  exists w'. auto.
Qed.

Lemma sleep_forward (d : Q) (w w' : World) :
  time_moves_forward (script w) = true ->
  sleep d w = (Ok tt, w') ->
  (clock w + d <= clock w')%Q /\ time_moves_forward (script w') = true.
Proof.
  intros Hf E. unfold sleep, bind, suspend in E.
  assert (Hf' : time_moves_forward (script (observe (ObsSleep d) w)) = true) by exact Hf.
  destruct (next_turn_forward _ Hf') as (He & Hrest & Hclk).
  destruct (next_turn (observe (ObsSleep d) w)) as [tn wa]. cbn [fst snd] in *.
  pose proof (env_turn_clock d tn wa) as Hc.
  destruct (env_turn_log d tn wa) as [_ Hsc].
  destruct (cancelling (env_turn d tn wa)); simpl in E; [discriminate|].
  inversion E; subst. rewrite Hc, Hclk, Hsc. simpl. split; [lra | exact Hrest].
Qed.

Lemma active_wait_forward (w w1 : World) :
  time_moves_forward (script w) = true ->
  active_wait w = (Ok tt, w1) ->
  (clock w <= clock w1)%Q.
Proof.
  intros Hf E. unfold active_wait in E.
  destruct (_active (self w)) as [[|] t'].
  - inversion E; subst. simpl. lra.
  - apply (wait_set_forward _ _ _ Hf) in E. exact E.
Qed.

(** X5.  When time does not run backwards, a cycle that gets through
    its sleep and the gate reaches the dispatch no earlier than the fire
    time [start + (count + 1) * interval] of its tick. *)
Theorem tick_is_never_early (interval : Q) (count : Z) (start : Q) (w w1 : World) :
  time_moves_forward (script w) = true ->
  sleep_then_gate interval count start w = (Ok tt, w1) ->
  (fire_time start interval (count + 1) <= clock w1)%Q.
Proof.
  intros Hf E.
  destruct (sleep_then_gate_ok _ _ _ _ _ E) as (w' & Es & Ea).
  destruct (sleep_forward _ _ _ Hf Es) as [H1 H2].
  pose proof (active_wait_forward _ _ H2 Ea) as H3.
  assert (Hd : (fire_time start interval (count + 1) - clock w <=
                py_max0 (fire_time start interval (count + 1) - clock w))%Q).
  { unfold py_max0. destruct (Qltb 0 _) eqn:Ed; [lra|]. apply Qltb_ge in Ed. exact Ed. }
  lra.
Qed.

(** *** What is posted *)

Lemma posts_app (l1 l2 : list Obs) : posts (l1 ++ l2) = posts l1 ++ posts l2.
Proof.
  induction l1 as [|o l1 IH]; simpl; [reflexivity|].
  destruct o; simpl; rewrite IH; reflexivity.
Qed.

Lemma tick_posts (next_timer : Q) (count : Z) (w : World) :
  exists l,
    log (snd (_tick next_timer count w)) = log w ++ ObsTick next_timer count :: l /\
    Forall (fun event =>
              event = {| ev_timer := name (self w); ev_time := next_timer;
                         ev_count := count; ev_callback := None |})
           (posts l).
Proof.
  unfold _tick.
  unfold bind at 1. unfold bind at 1. unfold get_app_exit at 1. cbn [app_exit observe].
  destruct (app_exit w); [exists []; simpl; auto|].
  unfold bind at 1. unfold get_self at 1. cbn [self observe].
  destruct (_callback (self w)) as [cb|] eqn:Hcb.
  - unfold try_except.
    pose proof (invoke_log cb (observe (ObsTick next_timer count) w)) as H.
    destruct (invoke cb _) as [[[]|e| |] w1]; cbn [snd log observe] in *;
      try (exists [ObsInvoke cb]; rewrite H, <- app_assoc; simpl; auto; fail).
    destruct e; simpl;
      try (exists [ObsInvoke cb]; rewrite H, <- app_assoc; simpl; auto; fail);
      (eexists [ObsInvoke cb; ObsHandled _]; rewrite H, <- !app_assoc; simpl; auto).
  - unfold bind, target, post_message. cbn [target_alive observe].
    destruct (target_alive w); cbn [snd log observe].
    + eexists [ObsPost _]. rewrite <- app_assoc. simpl. split; [reflexivity|].
      constructor; [reflexivity | constructor].
    + exists []. simpl. auto.
Qed.

Lemma run_loop_posts (fuel : nat) (repeat : option Z) (interval : Q)
    (count : Z) (start : Q) (w : World) (t : Timer) :
  no_reset w ->
  same_config t w ->
  exists news,
    log (snd (run_loop fuel repeat interval count start w)) = log w ++ news /\
    Forall (fun event =>
              ev_timer event = name t /\ ev_callback event = None /\
              ev_time event = fire_time start interval (ev_count event))
           (posts news).
Proof.
  intros Hnr Hcf.
  destruct (run_loop_trace repeat interval
              (fun _ s w0 news _ =>
                 no_reset w0 -> same_config t w0 ->
                 Forall (fun event =>
                           ev_timer event = name t /\ ev_callback event = None /\
                           ev_time event = fire_time s interval (ev_count event))
                        (posts news)))
    with (fuel := fuel) (c := count) (s := start) (w := w) as (news & Hn & Hp).
  - intros. constructor.
  - intros. constructor.
  - intros. constructor.
  - intros c s w0 news r0 _ _ _ H. exact H.
  - intros. simpl. constructor.
  - intros c s w0 w1 news r0 _ _ Eg Hr _ Hnr0 _.
    pose proof (no_reset_sleep_then_gate interval c s w0 Hnr0) as H1.
    rewrite Eg in H1. destruct H1 as [H1 _]. cbn [snd] in H1. congruence.
  - intros c s w0 w1 r2 w2 l _ _ Eg _ Et Hl _ _ Hnr0 Hcf0.
    destruct (config_loop_invariant t) as (Kg & _).
    pose proof (Kg interval c s w0 Hcf0) as Hcf1. rewrite Eg in Hcf1. cbn [snd] in Hcf1.
    destruct (tick_posts (fire_time s interval (c + 1)) (c + 1) w1) as (l' & Hl' & Hev).
    rewrite Et in Hl'. cbn [snd] in Hl'. rewrite Hl in Hl'.
    apply app_inv_head in Hl'. inversion Hl'; subst l'.
    simpl. eapply Forall_impl; [|exact Hev]. intros ev ->. simpl.
    destruct Hcf1 as (_ & Hname & _). auto.
  - intros c s w0 w1 w2 l news r0 _ _ Eg _ Et Hl _ IH Hnr0 Hcf0.
    destruct (config_loop_invariant t) as (Kg & Kt & _).
    pose proof (Kg interval c s w0 Hcf0) as Hcf1. rewrite Eg in Hcf1. cbn [snd] in Hcf1.
    pose proof (Kt (fire_time s interval (c + 1)) (c + 1) w1 Hcf1) as Hcf2.
    pose proof (no_reset_sleep_then_gate interval c s w0 Hnr0) as Hnr1.
    rewrite Eg in Hnr1. cbn [snd] in Hnr1.
    destruct no_reset_loop_invariant as (_ & _ & Nt).
    pose proof (Nt (fire_time s interval (c + 1)) (c + 1) w1 Hnr1) as Hnr2.
    rewrite Et in Hcf2, Hnr2. cbn [snd] in Hcf2, Hnr2.
    destruct (tick_posts (fire_time s interval (c + 1)) (c + 1) w1) as (l' & Hl' & Hev).
    rewrite Et in Hl'. cbn [snd] in Hl'. rewrite Hl in Hl'.
    apply app_inv_head in Hl'. inversion Hl'; subst l'.
    simpl. rewrite posts_app. apply Forall_app. split.
    + eapply Forall_impl; [|exact Hev]. intros ev ->. simpl.
      destruct Hcf1 as (_ & Hname & _). auto.
    + apply IH; assumption.
  - exists news. split; [exact Hn|]. apply Hp; assumption.
Qed.

(** X11.  While no [reset()] is requested, every event the loop posts
    carries the timer's name, no callback, and as its time the fire time
    [start + count * interval] of the count it carries. *)
Theorem posted_events_match_their_tick (fuel : nat) (repeat : option Z) (interval : Q)
    (count : Z) (start : Q) (w : World) :
  no_reset w ->
  exists news,
    log (snd (run_loop fuel repeat interval count start w)) = log w ++ news /\
    Forall (fun event =>
              ev_timer event = name (self w) /\ ev_callback event = None /\
              ev_time event = fire_time start interval (ev_count event))
           (posts news).
Proof.
  intro Hnr.
  apply (run_loop_posts fuel repeat interval count start w (self w) Hnr (same_config_refl w)).
Qed.

(** *** A callback or an event, never both *)

Lemma tick_exclusive (next_timer : Q) (count : Z) (w : World) :
  exists l,
    log (snd (_tick next_timer count w)) = log w ++ ObsTick next_timer count :: l /\
    (_callback (self w) <> None -> posts l = []) /\
    (_callback (self w) = None -> filter is_invoke l = [] /\ filter is_handled l = []).
Proof.
  unfold _tick.
  unfold bind at 1. unfold bind at 1. unfold get_app_exit at 1. cbn [app_exit observe].
  destruct (app_exit w); [exists []; simpl; auto|].
  unfold bind at 1. unfold get_self at 1. cbn [self observe].
  destruct (_callback (self w)) as [cb|] eqn:Hcb.
  - unfold try_except.
    pose proof (invoke_log cb (observe (ObsTick next_timer count) w)) as H.
    destruct (invoke cb _) as [[[]|e| |] w1]; cbn [snd log observe] in *;
      try (exists [ObsInvoke cb]; rewrite H, <- app_assoc; simpl;
           repeat split; auto; discriminate).
    destruct e; simpl;
      try (exists [ObsInvoke cb]; rewrite H, <- app_assoc; simpl;
           repeat split; auto; discriminate);
      (eexists [ObsInvoke cb; ObsHandled _]; rewrite H, <- !app_assoc; simpl;
       repeat split; auto; discriminate).
  - unfold bind, target, post_message. cbn [target_alive observe].
    destruct (target_alive w); cbn [snd log observe].
    + eexists [ObsPost _]. rewrite <- app_assoc. simpl. repeat split; auto. congruence.
    + exists []. simpl. auto.
Qed.

Lemma callback_kept (t : Timer) (w : World) :
  same_config t w -> _callback (self w) = _callback t.
Proof. intro H. apply H. Qed.

(** X10.  A timer with a callback never posts a [Timer] event; a timer
    without one never invokes a callback and never calls the host's error
    handler. *)
Theorem dispatch_is_callback_or_event (fuel : nat) (repeat : option Z) (interval : Q)
    (count : Z) (start : Q) (w : World) :
  exists news,
    log (snd (run_loop fuel repeat interval count start w)) = log w ++ news /\
    (_callback (self w) <> None -> posts news = []) /\
    (_callback (self w) = None ->
     filter is_invoke news = [] /\ filter is_handled news = []).
Proof.
  destruct (run_loop_trace repeat interval
              (fun _ _ w0 news _ =>
                 same_config (self w) w0 ->
                 (_callback (self w) <> None -> posts news = []) /\
                 (_callback (self w) = None ->
                  filter is_invoke news = [] /\ filter is_handled news = [])))
    with (fuel := fuel) (c := count) (s := start) (w := w) as (news & Hn & Hp).
  - intros. simpl. auto.
  - intros. simpl. auto.
  - intros. simpl. auto.
  - intros c s w0 news r0 _ _ _ H. exact H.
  - intros. simpl. auto.
  - intros c s w0 w1 news r0 _ _ Eg _ IH Hcf0.
    destruct (config_loop_invariant (self w)) as (Kg & _).
    pose proof (Kg interval c s w0 Hcf0) as Hcf1. rewrite Eg in Hcf1. cbn [snd] in Hcf1.
    simpl. apply IH. exact Hcf1.
  - intros c s w0 w1 r2 w2 l _ _ Eg _ Et Hl _ _ Hcf0.
    destruct (config_loop_invariant (self w)) as (Kg & _).
    pose proof (Kg interval c s w0 Hcf0) as Hcf1. rewrite Eg in Hcf1. cbn [snd] in Hcf1.
    destruct (tick_exclusive (fire_time s interval (c + 1)) (c + 1) w1) as (l' & Hl' & H1 & H2).
    rewrite Et in Hl'. cbn [snd] in Hl'. rewrite Hl in Hl'.
    apply app_inv_head in Hl'. inversion Hl'; subst l'.
    rewrite (callback_kept _ _ Hcf1) in H1, H2. simpl. auto.
  - intros c s w0 w1 w2 l news r0 _ _ Eg _ Et Hl _ IH Hcf0.
    destruct (config_loop_invariant (self w)) as (Kg & Kt & _).
    pose proof (Kg interval c s w0 Hcf0) as Hcf1. rewrite Eg in Hcf1. cbn [snd] in Hcf1.
    pose proof (Kt (fire_time s interval (c + 1)) (c + 1) w1 Hcf1) as Hcf2.
    rewrite Et in Hcf2. cbn [snd] in Hcf2.
    destruct (tick_exclusive (fire_time s interval (c + 1)) (c + 1) w1) as (l' & Hl' & H1 & H2).
    rewrite Et in Hl'. cbn [snd] in Hl'. rewrite Hl in Hl'.
    apply app_inv_head in Hl'. inversion Hl'; subst l'.
    rewrite (callback_kept _ _ Hcf1) in H1, H2.
    destruct (IH Hcf2) as [I1 I2]. simpl. rewrite posts_app, !filter_app. split.
    + intro Hc. rewrite (H1 Hc), (I1 Hc). reflexivity.
    + intro Hc. destruct (H2 Hc) as [-> ->]. destruct (I2 Hc) as [-> ->]. auto.
  - exists news. split; [exact Hn|]. apply Hp. apply same_config_refl.
Qed.

(** *** An unbounded timer *)

Lemma tick_gone_inv (next_timer : Q) (count : Z) (w w2 : World) (e : exn) :
  _tick next_timer count w = (Raise e, w2) ->
  is_EventTargetGone e = true ->
  _callback (self w) = None /\ target_alive w2 = false.
Proof.
  unfold _tick. unfold bind at 1. unfold bind at 1. unfold get_app_exit at 1.
  cbn [app_exit observe]. destruct (app_exit w); [discriminate|].
  unfold bind at 1. unfold get_self at 1. cbn [self observe].
  destruct (_callback (self w)) as [cb|] eqn:Hcb.
  - unfold try_except, invoke. destruct (next_turn _) as [tn w1].
    destruct (outcome tn) as [|e']; [discriminate|].
    destruct e'; simpl; intros E He; inversion E; subst; discriminate.
  - unfold bind, target. cbn [target_alive observe].
    destruct (target_alive w) eqn:Ha; simpl; [discriminate|].
    intros E _. inversion E; subst. split; [reflexivity | exact Ha].
Qed.

(** X9.  With [repeat=None] the loop returns normally only by the
    [break] on [EventTargetGone]: the timer has no callback and its target is
    gone at the end of the run. *)
Theorem unbounded_timer_returns_only_without_target (fuel : nat) :
  forall (interval : Q) (count : Z) (start : Q) (w : World),
    fst (run_loop fuel None interval count start w) = Ok tt ->
    _callback (self w) = None /\
    target_alive (snd (run_loop fuel None interval count start w)) = false.
Proof.
  induction fuel as [|fuel IH]; intros interval count start w E.
  - simpl in E. discriminate.
  - assert (Hc : loop_cond None count = true) by reflexivity.
    destruct (skips interval count start w) eqn:Hs.
    + rewrite run_loop_step, iteration_skips in E |- * by assumption.
      destruct (Qeq_bool interval 0); [discriminate|]. apply IH. exact E.
    + destruct (config_loop_invariant (self w)) as (Kg & Kt & _ & _).
      pose proof (Kg interval count start w (same_config_refl w)) as Hcf1.
      destruct (sleep_then_gate interval count start w) as [r1 w1] eqn:Eg.
      cbn [snd] in Hcf1.
      destruct r1 as [[]|e| |].
      2,3,4: rewrite run_loop_step, iteration_due in E by assumption;
             unfold bind at 1 in E; rewrite Eg in E; discriminate.
      destruct (_reset (self w1)) eqn:Hr.
      * rewrite run_loop_step, (run_loop_reset fuel None interval count start w w1)
          in E |- * by assumption.
        destruct (IH _ _ _ _ E) as [H1 H2]. split; [|exact H2].
        cbn [self with_self with_reset _callback] in H1.
        rewrite <- (callback_kept _ _ Hcf1). exact H1.
      * rewrite (run_loop_tick fuel None interval count start w w1) in E |- * by assumption.
        pose proof (Kt (fire_time start interval (count + 1)) (count + 1) w1 Hcf1) as Hcf2.
        destruct (_tick _ _ w1) as [r2 w2] eqn:Et. cbn [fst snd] in *.
        destruct r2 as [[]|e| |]; try discriminate.
        -- destruct (IH _ _ _ _ E) as [H1 H2]. split; [|exact H2].
           rewrite <- (callback_kept _ _ Hcf2). exact H1.
        -- destruct (is_EventTargetGone e) eqn:Ee; [|discriminate].
           destruct (tick_gone_inv _ _ _ _ _ Et Ee) as [H1 H2]. cbn [snd]. split; [|exact H2].
           rewrite <- (callback_kept _ _ Hcf1). exact H1.
Qed.

(** ** The theorems on whole runs at concrete inputs *)

Lemma fire_times_are_anchored_witness :
  exists news,
    log (snd (run_loop 3 None 1 1 0 late_world)) = log late_world ++ news /\
    Forall (fun p => fst p = fire_time 0 1 (snd p)) (tick_pairs news).
Proof.
  apply (fire_times_are_anchored 3 None 1 1 0 late_world);
    [split; reflexivity | right; reflexivity].
Defined.

Lemma counts_are_consecutive_without_skip_witness :
  exists news,
    log (snd (run_loop 3 None 1 0 0 plain_world)) = log plain_world ++ news /\
    ticks news = counts_from 0 (List.length (ticks news)).
Proof.
  apply (counts_are_consecutive_without_skip 3 None 1 0 0 plain_world);
    [split; reflexivity | reflexivity].
Defined.

Lemma counts_are_strictly_increasing_witness :
  exists news,
    log (snd (run_loop 3 None 1 1 0 late_world)) = log late_world ++ news /\
    StronglySorted Z.lt (1 :: ticks news).
Proof.
  apply (counts_are_strictly_increasing 3 None 1 1 0 late_world);
    [split; reflexivity | reflexivity].
Defined.

Lemma posted_events_match_their_tick_witness :
  exists news,
    log (snd (run_loop 3 None 1 0 0 posting_world)) = log posting_world ++ news /\
    Forall (fun event =>
              ev_timer event = name (self posting_world) /\ ev_callback event = None /\
              ev_time event = fire_time 0 1 (ev_count event))
           (posts news).
Proof.
  apply (posted_events_match_their_tick 3 None 1 0 0 posting_world). split; reflexivity.
Defined.

Lemma tick_is_never_early_witness :
  (fire_time 0 1 (0 + 1) <= clock (snd (sleep_then_gate 1 0 0 pause_then_resume_world)))%Q.
Proof.
  apply (tick_is_never_early 1 0 0 pause_then_resume_world
           (snd (sleep_then_gate 1 0 0 pause_then_resume_world)));
    reflexivity.
Defined.

Lemma pause_keeps_the_pending_tick_witness :
  exists w2 l,
    sleep_then_gate 1 0 0 pause_then_resume_world = (Ok tt, w2) /\
    (clock w2 ==
     clock (snd (sleep (py_max0 (fire_time 0 1 (0 + 1) - clock pause_then_resume_world))
                       pause_then_resume_world)) +
     total_elapsed ([mkTurn 5 [] Returns] ++ [mkTurn 2 [CallResume] Returns]))%Q /\
    log (snd (iteration 1 0 0 pause_then_resume_world)) =
    log pause_then_resume_world ++
    ObsSleep (py_max0 (fire_time 0 1 (0 + 1) - clock pause_then_resume_world))
      :: ObsTick (fire_time 0 1 (0 + 1)) (0 + 1) :: l.
Proof.
  apply (pause_keeps_the_pending_tick 1 0 0 pause_then_resume_world
           (snd (sleep (py_max0 (fire_time 0 1 (0 + 1) - clock pause_then_resume_world))
                       pause_then_resume_world))
           [mkTurn 5 [] Returns] (mkTurn 2 [CallResume] Returns) []);
    reflexivity.
Defined.

Lemma bounded_timer_terminates_witness :
  fst (run_loop 3 (Some 2) 1 0 0 plain_world) <> OutOfFuel.
Proof.
  apply (bounded_timer_terminates 3 2 1 0 0 plain_world);
    [split; reflexivity | left; reflexivity | simpl; lia].
Defined.



Lemma zero_interval_divides_by_zero_witness :
  run_loop 1 None 0 1 0 late_world = (Raise (Exception_ "ZeroDivisionError"), late_world).
Proof.
  apply (zero_interval_divides_by_zero 0 None 0 1 0 late_world); reflexivity.
Defined.


Lemma paused_timer_stopped_witness :
  exists w',
    _run_timer 3 (start_world (fst (__init__ Timer_class "widget" 1 None
                                      (Some (Callback 0)) None true true)) 0
                              ([mkTurn 7 [] Returns] ++ mkTurn 1 [CallStop] Returns :: [])) =
    (Ok tt, w') /\
    log w' = [] /\ _task (self w') = None /\ fst (_active (self w')) = true.
Proof.
  apply (paused_timer_stopped Timer_class "widget" 1 None (Some (Callback 0)) None true 0
           [mkTurn 7 [] Returns] (mkTurn 1 [CallStop] Returns) [] 3);
    reflexivity.
Defined.

Lemma pause_resume_round_trip_witness :
  resume (pause (resume (demo_timer None None true true))) =
  resume (demo_timer None None true true).
Proof.
  apply (pause_resume_round_trip (resume (demo_timer None None true true))). reflexivity.
Defined.

Lemma unbounded_timer_returns_only_without_target_witness :
  _callback (self released_world) = None /\
  target_alive (snd (run_loop 3 None 1 0 0 released_world)) = false.
Proof.
  apply (unbounded_timer_returns_only_without_target 3 1 0 0 released_world). reflexivity.
Defined.
